(** * Staff assignment engine of the workforce management system

    A shallow embedding of [workforce_management/staff_assignment]
    ([models.py] and [manager.py]): the roster, the per-day allocation
    decision with its overtime branch, and the cross-day state (workday
    counters, worked-yesterday flags, history).

    Python dictionaries keyed by staff name are [gmap string _]; a lookup
    [d[k]] that can raise [KeyError] is [dict_get]; integers are [Z]; lists
    are lists.  The manager object [self] is one record which every method
    takes and, when it mutates, returns. *)

From Stdlib Require Import ZArith Lia.
From stdpp Require Import base option list gmap strings fin_maps sorting.

Local Open Scope Z_scope.

(** ** Exceptions and the result of a call *)

Inductive exn : Type :=
  | KeyError (key : string)
  | ValueError (msg : string) (what : list string).

Inductive result (A : Type) : Type :=
  | Ok (a : A)
  | Raise (e : exn).

Arguments Ok {A} a.
Arguments Raise {A} e.

#[global] Instance result_ret : MRet result := λ A a, Ok a.

#[global] Instance result_bind : MBind result := λ A B f r,
  match r with
  | Ok a => f a
  | Raise e => Raise e
  end.

(** [d[k]] on a dictionary. *)
Definition dict_get {A : Type} (d : gmap string A) (k : string) : result A :=
  match d !! k with
  | Some v => Ok v
  | None => Raise (KeyError k)
  end.

(** [len(l)] as a Python integer. *)
Definition len {A : Type} (l : list A) : Z := Z.of_nat (length l).

(** [l[:k]]: a negative bound counts from the end of the list, and every
    bound is clamped to the list. *)
Definition slice_to {A : Type} (l : list A) (k : Z) : list A :=
  if k <? 0 then take (Z.to_nat (Z.max 0 (len l + k))) l
  else take (Z.to_nat k) l.

(** ** list.sort(key=...)

    Python computes the key of every element first (the first failing key
    aborts the sort), sorts the decorated list by key alone, stably, and
    drops the keys.  The stable sort is written as an insertion sort that
    places an element in front of the elements of equal key that followed
    it in the input. *)

Fixpoint decorate {A : Type} (key : A → result Z) (l : list A)
  : result (list (Z * A)) :=
  match l with
  | [] => Ok []
  | x :: l' =>
      k ← key x;
      r ← decorate key l';
      Ok ((k, x) :: r)
  end.

Fixpoint insert_keyed {A : Type} (x : Z * A) (l : list (Z * A))
  : list (Z * A) :=
  match l with
  | [] => [x]
  | y :: l' => if x.1 <=? y.1 then x :: l else y :: insert_keyed x l'
  end.

Definition sort_keyed {A : Type} (l : list (Z * A)) : list (Z * A) :=
  foldr insert_keyed [] l.

Definition list_sort {A : Type} (key : A → result Z) (l : list A)
  : result (list A) :=
  d ← decorate key l;
  Ok (snd <$> sort_keyed d).

(** ** models.py *)

(** A [datetime] is used for equality and for its weekday only; it is
    represented by its proleptic Gregorian ordinal (day 1 is a Monday). *)
Definition datetime : Type := Z.

Definition weekday_names : list string :=
  ["Monday"; "Tuesday"; "Wednesday"; "Thursday"; "Friday"; "Saturday";
   "Sunday"]%string.

(** [date.strftime('%A')] *)
Definition strftime_A (d : datetime) : string :=
  nth (Z.to_nat ((d + 6) mod 7)) weekday_names ""%string.

Record Staff : Type := mkStaff {
  employee_id : Z;
  name : string;
  holiday_dates : list datetime
}.

#[global] Instance Staff_eq_dec : EqDecision Staff.
Proof. solve_decision. Defined.

(** [Staff.is_available]: [date not in self.holiday_dates] *)
Definition is_available (self : Staff) (date : datetime) : bool :=
  bool_decide (date ∉ holiday_dates self).

Record Assignment : Type := mkAssignment {
  date : datetime;
  day_name : string;
  people_required : Z;
  assigned_staff : list string;
  assigned_count : Z;
  overtime : bool;
  shortage : Z
}.

#[global] Instance Assignment_eq_dec : EqDecision Assignment.
Proof. solve_decision. Defined.

(** [Assignment.is_fully_staffed] *)
Definition is_fully_staffed (a : Assignment) : bool :=
  bool_decide (shortage a = 0).

(** The integer entries of the summary statistics; [assignment_rate] and
    [average_coverage] are floating-point quotients and are left out. *)
Record SummaryStats : Type := mkSummaryStats {
  total_assignments : Z;
  total_demand : Z;
  total_assigned : Z;
  overtime_days : Z;
  total_shortage : Z
}.

Record AssignmentResult : Type := mkAssignmentResult {
  assignments : list Assignment;
  workload_balance : gmap string Z;
  summary_stats : SummaryStats
}.

(** ** manager.py *)

Record StaffAssignmentManager : Type := mkManager {
  staff_list : list Staff;
  staff_names : list string;
  staff_lookup : gmap string Staff;
  staff_workdays : gmap string Z;
  staff_worked_yesterday : gmap string bool;
  assignment_history : list Assignment
}.

(** [{name: v for name in names}]: a later duplicate overwrites with the
    same value. *)
Definition dict_from_keys {A : Type} (names : list string) (v : A)
  : gmap string A :=
  foldl (λ d n, <[n := v]> d) ∅ names.

(** [_create_staff_lookup]: [{staff.name: staff for staff in staff_list}];
    of two members with one name the later one stays. *)
Definition _create_staff_lookup (staff : list Staff) : gmap string Staff :=
  foldl (λ d s, <[name s := s]> d) ∅ staff.

(** [reset_state]: the three state fields are replaced, whatever they
    held. *)
Definition reset_state (self : StaffAssignmentManager)
  : StaffAssignmentManager :=
  {| staff_list := staff_list self;
     staff_names := staff_names self;
     staff_lookup := staff_lookup self;
     staff_workdays := dict_from_keys (staff_names self) 0;
     staff_worked_yesterday := dict_from_keys (staff_names self) false;
     assignment_history := [] |}.

(** [StaffAssignmentManager.__init__].  The constructor has no [raise] and
    no lookup; it is written in [result] like every other entry point so
    that "construction fails" is a statement about its value. *)
Definition __init__ (staff : list Staff) : result StaffAssignmentManager :=
  Ok (reset_state
        {| staff_list := staff;
           staff_names := name <$> staff;
           staff_lookup := _create_staff_lookup staff;
           staff_workdays := ∅;
           staff_worked_yesterday := ∅;
           assignment_history := [] |}).

(** The argument of [load_state] and the value of [get_state]: a dictionary
    with the optional keys ['staff_workdays'] and
    ['staff_worked_yesterday']. *)
Record StateDict : Type := mkStateDict {
  sd_staff_workdays : option (gmap string Z);
  sd_staff_worked_yesterday : option (gmap string bool)
}.

(** [load_state]: [dict.update] lets the loaded entries win. *)
Definition load_state (self : StaffAssignmentManager) (state : StateDict)
  : StaffAssignmentManager :=
  {| staff_list := staff_list self;
     staff_names := staff_names self;
     staff_lookup := staff_lookup self;
     staff_workdays :=
       match sd_staff_workdays state with
       | Some d => d ∪ staff_workdays self
       | None => staff_workdays self
       end;
     staff_worked_yesterday :=
       match sd_staff_worked_yesterday state with
       | Some d => d ∪ staff_worked_yesterday self
       | None => staff_worked_yesterday self
       end;
     assignment_history := assignment_history self |}.

Definition get_state (self : StaffAssignmentManager) : StateDict :=
  {| sd_staff_workdays := Some (staff_workdays self);
     sd_staff_worked_yesterday := Some (staff_worked_yesterday self) |}.

(** [get_available_staff]: the names of the members not on holiday, in
    roster order. *)
Definition get_available_staff (self : StaffAssignmentManager)
    (date : datetime) : list string :=
  name <$> filter (λ s, is_available s date = true) (staff_list self).

(** [get_eligible_staff]:
    [[name for name in available_staff
      if not self.staff_worked_yesterday[name]]] *)
Fixpoint get_eligible_staff (self : StaffAssignmentManager)
    (available_staff : list string) : result (list string) :=
  match available_staff with
  | [] => Ok []
  | n :: rest =>
      b ← dict_get (staff_worked_yesterday self) n;
      r ← get_eligible_staff self rest;
      Ok (if b : bool then r else n :: r)
  end.

(** [l.sort(key=lambda name: self.staff_workdays[name])] *)
Definition sort_by_workdays (self : StaffAssignmentManager)
    (l : list string) : result (list string) :=
  list_sort (dict_get (staff_workdays self)) l.

(** [if name in d: d[name] += 1], the body of the second loop of
    [_update_state]. *)
Definition incr_workday (d : gmap string Z) (n : string) : gmap string Z :=
  match d !! n with
  | Some c => <[n := c + 1]> d
  | None => d
  end.

(** [_update_state]: every roster name gets its flag rewritten; every
    assigned name that is a key of [staff_workdays] gets one more day. *)
Definition _update_state (self : StaffAssignmentManager)
    (assigned : list string) : StaffAssignmentManager :=
  {| staff_list := staff_list self;
     staff_names := staff_names self;
     staff_lookup := staff_lookup self;
     staff_workdays := foldl incr_workday (staff_workdays self) assigned;
     staff_worked_yesterday :=
       foldl (λ d n, <[n := bool_decide (n ∈ assigned)]> d)
             (staff_worked_yesterday self) (staff_names self);
     assignment_history := assignment_history self |}.

(** [self.assignment_history.append(assignment)] *)
Definition record_history (self : StaffAssignmentManager) (a : Assignment)
  : StaffAssignmentManager :=
  {| staff_list := staff_list self;
     staff_names := staff_names self;
     staff_lookup := staff_lookup self;
     staff_workdays := staff_workdays self;
     staff_worked_yesterday := staff_worked_yesterday self;
     assignment_history := assignment_history self ++ [a] |}.

(** [assign_staff_for_day] (the [verbose] printing is left out).  In the
    overtime branch [available_staff] is sorted in place, so the list
    whose length enters [shortage] is the sorted one. *)
Definition assign_staff_for_day (self : StaffAssignmentManager)
    (date : datetime) (people_required : Z) (day_name : option string)
  : result (Assignment * StaffAssignmentManager) :=
  let day_name := default (strftime_A date) day_name in
  let available_staff := get_available_staff self date in
  eligible_staff ← get_eligible_staff self available_staff;
  eligible_staff ← sort_by_workdays self eligible_staff;
  '(assigned, overtime_flag, available_staff) ←
    (if people_required <=? len eligible_staff
     then Ok (slice_to eligible_staff people_required, false,
              available_staff)
     else
       available_staff ← sort_by_workdays self available_staff;
       Ok (slice_to available_staff people_required, true,
           available_staff));
  let assignment :=
    {| date := date;
       day_name := day_name;
       people_required := people_required;
       assigned_staff := assigned;
       assigned_count := len assigned;
       overtime := overtime_flag;
       shortage := Z.max 0 (people_required - len available_staff) |} in
  let self := _update_state self assigned in
  let self := record_history self assignment in
  Ok (assignment, self).

(** The forecast table handed to [assign_week]: its column names and its
    rows in order; a row holds [day_name] only when the table has that
    column. *)
Record DayForecast : Type := mkDayForecast {
  row_date : datetime;
  row_people_required : Z;
  row_day_name : option string
}.

Record DataFrame : Type := mkDataFrame {
  columns : list string;
  rows : list DayForecast
}.

(** The loop of [assign_week] over [forecast_df.iterrows()].  An exception
    leaves the loop at once; the days assigned before it stay applied to
    the manager object, which the raised value does not carry. *)
Fixpoint assign_days (self : StaffAssignmentManager)
    (days : list DayForecast)
  : result (list Assignment * StaffAssignmentManager) :=
  match days with
  | [] => Ok ([], self)
  | day_forecast :: rest =>
      let day_name :=
        default (strftime_A (row_date day_forecast))
                (row_day_name day_forecast) in
      '(assignment, self) ←
        assign_staff_for_day self (row_date day_forecast)
          (row_people_required day_forecast) (Some day_name);
      '(week_assignments, self) ← assign_days self rest;
      Ok (assignment :: week_assignments, self)
  end.

Definition sum_Z {A : Type} (f : A → Z) (l : list A) : Z :=
  foldr (λ a acc, f a + acc) 0 l.

(** [_generate_summary_stats], integer entries. *)
Definition _generate_summary_stats (l : list Assignment) : SummaryStats :=
  {| total_assignments := len l;
     total_demand := sum_Z people_required l;
     total_assigned := sum_Z assigned_count l;
     overtime_days := sum_Z (λ a, if overtime a then 1 else 0) l;
     total_shortage := sum_Z shortage l |}.

Definition required_cols : list string := ["date"; "people_required"]%string.

(** [assign_week] *)
Definition assign_week (self : StaffAssignmentManager)
    (forecast_df : DataFrame)
  : result (AssignmentResult * StaffAssignmentManager) :=
  let missing_cols :=
    filter (λ col, col ∉ columns forecast_df) required_cols in
  if bool_decide (missing_cols ≠ [])
  then Raise (ValueError "Missing required columns in forecast: "
                         missing_cols)
  else
    '(week_assignments, self) ← assign_days self (rows forecast_df);
    Ok ({| assignments := week_assignments;
           workload_balance := staff_workdays self;
           summary_stats := _generate_summary_stats week_assignments |},
        self).

(** [sum(d.values())] *)
Definition sum_values (d : gmap string Z) : Z :=
  map_fold (λ _ c acc, c + acc) 0 d.

(** [sum(self.staff_workdays.values())] *)
Definition total_workdays (self : StaffAssignmentManager) : Z :=
  sum_values (staff_workdays self).

(** ** Notions used to state the properties *)

(** Ascending keys, as a relation between neighbours of a decorated
    list. *)
Definition key_le {A : Type} (x y : Z * A) : Prop := x.1 ≤ y.1.

(** The order [list_sort] produces when every key is given by the total
    function [kf]. *)
Definition ranked {A : Type} (kf : A → Z) (l : list A) : list A :=
  snd <$> sort_keyed ((λ x, (kf x, x)) <$> l).

(** A decorated element carries the key of its payload. *)
Definition keyed_by {A : Type} (kf : A → Z) (p : Z * A) : Prop :=
  p.1 = kf p.2.

(** The count by which a name is ranked. *)
Definition workdays_of (self : StaffAssignmentManager) (n : string) : Z :=
  default 0 (staff_workdays self !! n).

(** The name did not work on the previous processed day. *)
Definition rested (self : StaffAssignmentManager) (n : string) : Prop :=
  staff_worked_yesterday self !! n = Some false.

#[global] Instance rested_dec self n : Decision (rested self n).
Proof. unfold rested. apply _. Defined.

(** What the constructor establishes and every method keeps: the name list
    is that of the roster, and each roster name is a key of both
    dictionaries. *)
Definition consistent (self : StaffAssignmentManager) : Prop :=
  staff_names self = name <$> staff_list self ∧
  Forall (λ n, is_Some (staff_workdays self !! n) ∧
               is_Some (staff_worked_yesterday self !! n))
         (staff_names self).

#[global] Instance consistent_dec self : Decision (consistent self).
Proof. unfold consistent. apply _. Defined.

(** The selection and the overtime flag of one day, on a consistent
    manager. *)
Definition decision (self : StaffAssignmentManager) (d : datetime) (R : Z)
  : list string * bool :=
  let available := get_available_staff self d in
  let eligible := filter (rested self) available in
  if R <=? len eligible
  then (slice_to (ranked (workdays_of self) eligible) R, false)
  else (slice_to (ranked (workdays_of self) available) R, true).

Definition assignment_of (self : StaffAssignmentManager) (d : datetime)
    (R : Z) (label : option string) : Assignment :=
  {| date := d;
     day_name := default (strftime_A d) label;
     people_required := R;
     assigned_staff := (decision self d R).1;
     assigned_count := len (decision self d R).1;
     overtime := (decision self d R).2;
     shortage := Z.max 0 (R - len (get_available_staff self d)) |}.

Definition after_day (self : StaffAssignmentManager) (d : datetime)
    (R : Z) (label : option string) : StaffAssignmentManager :=
  record_history (_update_state self (decision self d R).1)
                 (assignment_of self d R label).

(** [a] stands at an earlier position of [l] than [b]. *)
Definition precedes {A : Type} (a b : A) (l : list A) : Prop :=
  ∃ i j, (i < j)%nat ∧ l !! i = Some a ∧ l !! j = Some b.

(** Two manager objects over one roster. *)
Definition same_registry (s1 s2 : StaffAssignmentManager) : Prop :=
  staff_list s1 = staff_list s2 ∧
  staff_names s1 = staff_names s2 ∧
  staff_lookup s1 = staff_lookup s2.

#[global] Instance same_registry_dec s1 s2 : Decision (same_registry s1 s2).
Proof. unfold same_registry. apply _. Defined.

(** The label [assign_week] hands to [assign_staff_for_day]. *)
Definition row_label (r : DayForecast) : option string :=
  Some (default (strftime_A (row_date r)) (row_day_name r)).

(** ** forecasting/models.py: what the week loop is fed *)

(** [ForecastResult]; the optional [confidence_metrics], a dictionary of
    floating-point numbers, is left out. *)
Record ForecastResult : Type := mkForecastResult {
  dates : list datetime;
  predictions : list Z;
  method : string
}.

(** [ForecastResult.to_dataframe]: the three columns [date],
    [people_required] and [day_name]; the table constructor refuses
    columns of different lengths with a [ValueError]. *)
Definition to_dataframe (self : ForecastResult) : result DataFrame :=
  if bool_decide (length (dates self) = length (predictions self))
  then Ok {| columns := ["date"; "people_required"; "day_name"]%string;
             rows := zip_with (λ d p, mkDayForecast d p (Some (strftime_A d)))
                              (dates self) (predictions self) |}
  else Raise (ValueError "All arrays must be of the same length" []).

(** [DataFrame.tail(n)] on one column: the last [n] entries, or all of
    them when there are fewer. *)
Definition tail_rows {A : Type} (n : nat) (l : list A) : list A :=
  drop (length l - n) l.

(** [ForecastingEngine._last_week_pattern_forecast] on the [load_units]
    column of the loaded history:
    [[last_week[i % 7] for i in range(len(future_dates))]].
    [None] is the [IndexError] of an index past the end of [last_week]. *)
Definition _last_week_pattern_forecast (load_units : list Z)
    (future_dates : list datetime) : option (list Z) :=
  let last_week := tail_rows 7 load_units in
  mapM (λ i : nat, last_week !! (i mod 7)%nat)
       (seq 0 (length future_dates)).

(** ** A roster of three: the scenario of the specification *)

(** Staff A, B, C in this order; A is on holiday on day 3. *)
Definition roster : list Staff :=
  [mkStaff 1 "A" [3]; mkStaff 2 "B" []; mkStaff 3 "C" []].

(** The manager [__init__ roster] returns. *)
Definition fresh : StaffAssignmentManager :=
  reset_state
    {| staff_list := roster;
       staff_names := name <$> roster;
       staff_lookup := _create_staff_lookup roster;
       staff_workdays := ∅;
       staff_worked_yesterday := ∅;
       assignment_history := [] |}.

(** The manager after day 1 with two people required: A and B worked. *)
Definition after_day1 : StaffAssignmentManager := after_day fresh 1 2 None.

(** Two days of that roster, as rows, as a forecast table and as a
    forecast; and a snapshot that names only somebody not on the
    roster. *)
Definition two_days : list DayForecast :=
  [mkDayForecast 1 2 None; mkDayForecast 2 2 None].

Definition two_day_table : DataFrame :=
  mkDataFrame ["date"; "people_required"]%string two_days.

Definition two_day_forecast : ForecastResult :=
  mkForecastResult [1; 2] [2; 2] "last_week_pattern".

Definition stranger_snapshot : StateDict :=
  mkStateDict (Some {["Z"%string := 4]}) None.

(** ** Further operations of the manager *)

(** The inner loop of [get_holiday_conflicts]: the names of the members
    with [not staff.is_available(date)], in roster order. *)
Definition on_holiday (self : StaffAssignmentManager) (date : datetime)
  : list string :=
  name <$> filter (λ s, is_available s date = false) (staff_list self).

(** [get_holiday_conflicts]: a date of the range becomes a key only when
    somebody is on holiday; a date given twice is written twice. *)
Definition get_holiday_conflicts (self : StaffAssignmentManager)
    (date_range : list datetime) : gmap Z (list string) :=
  foldl (λ conflicts date,
           if bool_decide (on_holiday self date ≠ [])
           then <[date := on_holiday self date]> conflicts
           else conflicts)
        ∅ date_range.

(** Two manager objects that agree on everything a day's decision
    reads: the roster and the two dictionaries. *)
Definition same_state (s1 s2 : StaffAssignmentManager) : Prop :=
  staff_list s1 = staff_list s2 ∧
  staff_names s1 = staff_names s2 ∧
  staff_workdays s1 = staff_workdays s2 ∧
  staff_worked_yesterday s1 = staff_worked_yesterday s2.

(** * Properties *)

(** ** The result monad *)

Section result_facts.
Context {A B : Type}.
Implicit Types (r : result A) (f : A → result B).

Lemma bind_Ok r f b :
  r ≫= f = Ok b ↔ ∃ a, r = Ok a ∧ f a = Ok b.
Proof.
  destruct r as [a|e]; simpl; split.
  - intros H. by exists a.
  - by intros (a' & [= <-] & H).
  - discriminate.
  - by intros (a' & [=] & _).
Qed.

Lemma bind_of_Ok r f a : r = Ok a → r ≫= f = f a.
Proof. by intros ->. Qed.
End result_facts.

Lemma dict_get_Ok {A : Type} (d : gmap string A) (k : string) (v : A) :
  dict_get d k = Ok v ↔ d !! k = Some v.
Proof.
  unfold dict_get. destruct (d !! k); split; intros H; by simplify_eq.
Qed.

Lemma len_nonneg {A : Type} (l : list A) : 0 ≤ len l.
Proof. unfold len. lia. Qed.

(** ** Python slices *)

Section slice_facts.
Context {A : Type}.
Implicit Types (l : list A) (k : Z).

Lemma slice_to_take l k : 0 ≤ k → slice_to l k = take (Z.to_nat k) l.
Proof. intros Hk. unfold slice_to. by rewrite (proj2 (Z.ltb_ge k 0) Hk). Qed.

Lemma slice_to_prefix l k : ∃ n, slice_to l k = take n l.
Proof. unfold slice_to. destruct (k <? 0); eauto. Qed.

Lemma slice_to_sublist l k : slice_to l k `sublist_of` l.
Proof. destruct (slice_to_prefix l k) as [n ->]. apply sublist_take. Qed.

Lemma len_slice_to l k :
  0 ≤ k → len (slice_to l k) = Z.min k (len l).
Proof.
  intros Hk. rewrite slice_to_take by done. unfold len.
  rewrite length_take. lia.
Qed.

End slice_facts.

(** ** The stable sort *)

Section sort_facts.
Context {A : Type}.
Implicit Types (x : Z * A) (l : list (Z * A)).

Lemma insert_keyed_perm x l : insert_keyed x l ≡ₚ x :: l.
Proof.
  induction l as [|y l IH]; simpl; [done|].
  destruct (x.1 <=? y.1); [done|].
  rewrite IH. apply Permutation_swap.
Qed.

Lemma sort_keyed_perm l : sort_keyed l ≡ₚ l.
Proof.
  induction l as [|x l IH]; simpl; [done|].
  by rewrite insert_keyed_perm, IH.
Qed.

Lemma insert_keyed_sorted x l :
  Sorted key_le l → Sorted key_le (insert_keyed x l).
Proof.
  induction 1 as [|y l Hl IH Hhd]; simpl.
  - by repeat constructor.
  - destruct (Z.leb_spec (x.1) (y.1)) as [Hle|Hgt].
    + constructor; [by constructor|]. by constructor.
    + constructor; [done|].
      destruct Hhd as [|z l Hyz]; simpl.
      * constructor. unfold key_le. lia.
      * destruct (x.1 <=? z.1); constructor; unfold key_le in *; lia.
Qed.

Lemma sort_keyed_sorted l : Sorted key_le (sort_keyed l).
Proof.
  induction l; simpl; [constructor|]. by apply insert_keyed_sorted.
Qed.

(** Stability: the elements of one key keep their input order. *)
Lemma insert_keyed_filter (k : Z) x l :
  filter (λ p, p.1 = k) (insert_keyed x l)
  = filter (λ p, p.1 = k) (x :: l).
Proof.
  induction l as [|y l IH]; simpl; [done|].
  destruct (Z.leb_spec (x.1) (y.1)) as [Hle|Hgt]; [done|].
  rewrite filter_cons, IH, !filter_cons.
  destruct (decide (y.1 = k)), (decide (x.1 = k)); try done; lia.
Qed.

Lemma sort_keyed_filter (k : Z) l :
  filter (λ p, p.1 = k) (sort_keyed l) = filter (λ p, p.1 = k) l.
Proof.
  induction l as [|x l IH]; simpl; [done|].
  by rewrite insert_keyed_filter, !filter_cons, IH.
Qed.
End sort_facts.

Lemma filter_sublist_mono {A : Type} (P : A → Prop)
    `{!∀ x, Decision (P x)} (l1 l2 : list A) :
  l1 `sublist_of` l2 → filter P l1 `sublist_of` filter P l2.
Proof.
  induction 1 as [|x l1 l2 _ IH|x l1 l2 _ IH]; [done| |];
    rewrite !filter_cons; destruct (decide (P x));
    auto using sublist_skip, sublist_cons.
Qed.

Lemma filter_all {A : Type} (P : A → Prop) `{!∀ x, Decision (P x)}
    (l : list A) :
  Forall P l → filter P l = l.
Proof.
  induction 1 as [|x l Hx _ IH]; [done|].
  by rewrite filter_cons_True, IH.
Qed.

Section ranked_facts.
Context {A : Type} (kf : A → Z).
Implicit Types (l : list A) (d : list (Z * A)).

Lemma snd_decorated l : snd <$> ((λ x, (kf x, x)) <$> l) = l.
Proof. rewrite <-list_fmap_compose. apply list_fmap_id. Qed.

Lemma decorated_keyed l : Forall (keyed_by kf) ((λ x, (kf x, x)) <$> l).
Proof. apply Forall_fmap, Forall_true. intros x. reflexivity. Qed.

Lemma decorate_total (key : A → result Z) l :
  (∀ x, x ∈ l → key x = Ok (kf x)) →
  decorate key l = Ok ((λ x, (kf x, x)) <$> l).
Proof.
  induction l as [|x l IH]; intros Hkey; simpl; [done|].
  rewrite (Hkey x) by left. simpl.
  rewrite IH; [done|]. intros y Hy. apply Hkey. by right.
Qed.

Lemma list_sort_ranked (key : A → result Z) l :
  (∀ x, x ∈ l → key x = Ok (kf x)) →
  list_sort key l = Ok (ranked kf l).
Proof.
  intros Hkey. unfold list_sort. by rewrite (decorate_total _ _ Hkey).
Qed.

Lemma ranked_perm l : ranked kf l ≡ₚ l.
Proof.
  unfold ranked. rewrite sort_keyed_perm. by rewrite snd_decorated.
Qed.

Lemma ranked_length l : length (ranked kf l) = length l.
Proof. by rewrite ranked_perm. Qed.

Lemma len_ranked l : len (ranked kf l) = len l.
Proof. unfold len. by rewrite ranked_length. Qed.

Lemma elem_of_ranked l x : x ∈ ranked kf l ↔ x ∈ l.
Proof. by rewrite ranked_perm. Qed.

Lemma sort_keyed_keyed d :
  Forall (keyed_by kf) d → Forall (keyed_by kf) (sort_keyed d).
Proof. intros H. by rewrite sort_keyed_perm. Qed.

(** The ranked list has ascending keys. *)
Lemma ranked_sorted l : Sorted (λ a b, kf a ≤ kf b) (ranked kf l).
Proof.
  unfold ranked.
  pose proof (sort_keyed_keyed _ (decorated_keyed l)) as Hk.
  pose proof (sort_keyed_sorted ((λ x, (kf x, x)) <$> l)) as Hs.
  induction Hs as [|p d Hd IH Hhd]; [constructor|].
  apply Forall_cons in Hk as [Hp Hk].
  rewrite fmap_cons. constructor; [by apply IH|].
  destruct Hhd as [|q d Hpq]; [constructor|].
  apply Forall_cons in Hk as [Hq _].
  rewrite fmap_cons. constructor.
  unfold keyed_by, key_le in *. lia.
Qed.

Lemma filter_snd_keyed (k : Z) d :
  Forall (keyed_by kf) d →
  filter (λ a, kf a = k) (snd <$> d) = snd <$> filter (λ p, p.1 = k) d.
Proof.
  induction 1 as [|p d Hp _ IH]; [done|].
  rewrite fmap_cons, !filter_cons, IH. unfold keyed_by in Hp.
  destruct (decide (kf p.2 = k)), (decide (p.1 = k)); try done; lia.
Qed.

(** Stability of the ranking: within one key value the input order is
    kept. *)
Lemma ranked_filter (k : Z) l :
  filter (λ a, kf a = k) (ranked kf l) = filter (λ a, kf a = k) l.
Proof.
  unfold ranked.
  rewrite filter_snd_keyed by apply sort_keyed_keyed, decorated_keyed.
  rewrite sort_keyed_filter.
  rewrite <-filter_snd_keyed by apply decorated_keyed.
  by rewrite snd_decorated.
Qed.

Lemma ranked_stable l a b :
  [a; b] `sublist_of` ranked kf l → kf a = kf b → [a; b] `sublist_of` l.
Proof.
  intros Hsub Hab.
  apply (filter_sublist_mono (λ x, kf x = kf a)) in Hsub.
  rewrite ranked_filter in Hsub.
  rewrite filter_cons_True, filter_cons_True, filter_nil in Hsub by done.
  etrans; [exact Hsub|]. apply sublist_filter.
Qed.

Lemma ranked_nil : ranked kf [] = [].
Proof. done. Qed.

(** A list with ascending keys is determined by its elements of each key
    taken in order: every stable sort returns the same list, so the
    insertion sort above stands for the sort of the interpreter. *)
Lemma sorted_stable_unique (r1 r2 : list A) :
  Sorted (λ a b, kf a ≤ kf b) r1 →
  Sorted (λ a b, kf a ≤ kf b) r2 →
  (∀ k, filter (λ a, kf a = k) r1 = filter (λ a, kf a = k) r2) →
  r1 = r2.
Proof.
  assert (Transitive (λ a b : A, kf a ≤ kf b)) as Htrans
    by (intros a b c; lia).
  intros H1%Sorted_StronglySorted H2%Sorted_StronglySorted; [|done..].
  revert r2 H2. induction H1 as [|x r1 _ IH Hx]; intros r2 H2 Hf.
  - destruct r2 as [|y r2]; [done|].
    specialize (Hf (kf y)). by rewrite filter_cons_True in Hf.
  - destruct H2 as [|y r2 H2 Hy].
    { specialize (Hf (kf x)). by rewrite filter_cons_True in Hf. }
    assert (kf x ≤ kf y) as Hxy.
    { pose proof (Hf (kf y)) as Hk.
      rewrite (filter_cons_True _ y) in Hk by done.
      assert (y ∈ filter (λ a, kf a = kf y) (x :: r1)) as Hin
        by (rewrite Hk; left).
      apply list_elem_of_filter in Hin as [_ Hin].
      apply elem_of_cons in Hin as [->|Hin]; [done|].
      by apply (proj1 (Forall_forall _ _) Hx). }
    assert (kf y ≤ kf x) as Hyx.
    { pose proof (Hf (kf x)) as Hk.
      rewrite (filter_cons_True _ x) in Hk by done.
      assert (x ∈ filter (λ a, kf a = kf x) (y :: r2)) as Hin
        by (rewrite <-Hk; left).
      apply list_elem_of_filter in Hin as [_ Hin].
      apply elem_of_cons in Hin as [->|Hin]; [done|].
      by apply (proj1 (Forall_forall _ _) Hy). }
    assert (x = y) as <-.
    { specialize (Hf (kf x)).
      rewrite !filter_cons_True in Hf by lia. by injection Hf. }
    f_equal. apply IH; [done|]. intros k. specialize (Hf k).
    rewrite !filter_cons in Hf. destruct (decide (kf x = k)); [|done].
    by injection Hf.
Qed.

Lemma ranked_unique (l r : list A) :
  Sorted (λ a b, kf a ≤ kf b) r →
  (∀ k, filter (λ a, kf a = k) r = filter (λ a, kf a = k) l) →
  r = ranked kf l.
Proof.
  intros Hs Hf. apply sorted_stable_unique; [done|apply ranked_sorted|].
  intros k. by rewrite ranked_filter.
Qed.
End ranked_facts.

(** ** Dictionaries built and updated by loops *)

Section dict_facts.
Context {A : Type}.
Implicit Types (d : gmap string A) (l : list string).

(** [for n in l: d[n] = g(n)] *)
Lemma lookup_foldl_insert (g : string → A) d l n :
  foldl (λ d n, <[n := g n]> d) d l !! n
  = if decide (n ∈ l) then Some (g n) else d !! n.
Proof.
  revert d. induction l as [|x l IH]; intros d; cbn [foldl].
  - destruct (decide (n ∈ [])) as [Hin|_]; [|done].
    by apply elem_of_nil in Hin.
  - rewrite IH.
    destruct (decide (n ∈ l)) as [Hin|Hnin],
             (decide (n ∈ x :: l)) as [Hin'|Hnin']; try done.
    + exfalso. apply Hnin'. by right.
    + apply elem_of_cons in Hin' as [->|?]; [|done].
      by rewrite lookup_insert_eq.
    + apply not_elem_of_cons in Hnin' as [? ?].
      by rewrite lookup_insert_ne.
Qed.

Lemma lookup_dict_from_keys l (v : A) n :
  dict_from_keys l v !! n = if decide (n ∈ l) then Some v else None.
Proof.
  unfold dict_from_keys.
  by rewrite (lookup_foldl_insert (λ _, v)), lookup_empty.
Qed.
End dict_facts.

Section workday_facts.
Implicit Types (d : gmap string Z) (l : list string).

Lemma sum_values_empty : sum_values ∅ = 0.
Proof. apply map_fold_empty. Qed.

Lemma sum_values_insert_fresh d n c :
  d !! n = None → sum_values (<[n := c]> d) = c + sum_values d.
Proof.
  intros Hn. unfold sum_values.
  rewrite map_fold_insert_L; [done| |done]. intros. lia.
Qed.

Lemma sum_values_insert d n c c' :
  d !! n = Some c → sum_values (<[n := c']> d) = sum_values d + c' - c.
Proof.
  intros Hn.
  rewrite <-(insert_delete_id d n c) at 2 by done.
  rewrite <-(insert_delete_eq d n c').
  rewrite !sum_values_insert_fresh by apply lookup_delete_eq. lia.
Qed.

Lemma incr_workday_dom d n x :
  is_Some (incr_workday d n !! x) ↔ is_Some (d !! x).
Proof.
  unfold incr_workday. destruct (d !! n) as [c|] eqn:Hn; [|done].
  destruct (decide (n = x)) as [->|Hne].
  - rewrite lookup_insert_eq, Hn. split; eauto.
  - by rewrite lookup_insert_ne.
Qed.

Lemma incr_workday_mono d n x c :
  d !! x = Some c →
  ∃ c', incr_workday d n !! x = Some c' ∧ c ≤ c' ≤ c + 1.
Proof.
  intros Hx. unfold incr_workday.
  destruct (d !! n) as [cn|] eqn:Hn; [|exists c; split; [done|lia]].
  destruct (decide (n = x)) as [->|Hne].
  - rewrite lookup_insert_eq. simplify_eq. exists (c + 1). split; [done|lia].
  - rewrite lookup_insert_ne by done. exists c. split; [done|lia].
Qed.

Lemma incr_workday_sum d n :
  is_Some (d !! n) → sum_values (incr_workday d n) = sum_values d + 1.
Proof.
  intros [c Hn]. unfold incr_workday. rewrite Hn.
  rewrite (sum_values_insert d n c) by done. lia.
Qed.

Lemma foldl_incr_dom d l x :
  is_Some (foldl incr_workday d l !! x) ↔ is_Some (d !! x).
Proof.
  revert d. induction l as [|n l IH]; intros d; simpl; [done|].
  by rewrite IH, incr_workday_dom.
Qed.

Lemma foldl_incr_mono d l x c :
  d !! x = Some c →
  ∃ c', foldl incr_workday d l !! x = Some c' ∧ c ≤ c'.
Proof.
  revert d c. induction l as [|n l IH]; intros d c Hx; simpl.
  - exists c. split; [done|lia].
  - destruct (incr_workday_mono d n x c Hx) as (c1 & H1 & Hle).
    destruct (IH _ _ H1) as (c2 & H2 & Hle2).
    exists c2. split; [done|lia].
Qed.

Lemma foldl_incr_sum d l :
  (∀ n, n ∈ l → is_Some (d !! n)) →
  sum_values (foldl incr_workday d l) = sum_values d + len l.
Proof.
  revert d. induction l as [|n l IH]; intros d Hdom; simpl.
  - unfold len. simpl. lia.
  - rewrite IH.
    + rewrite incr_workday_sum by (apply Hdom; left).
      unfold len. simpl length. lia.
    + intros x Hx. apply incr_workday_dom, Hdom. by right.
Qed.

(** A name that is not assigned keeps its count; a name assigned once
    gains exactly one day. *)
Lemma foldl_incr_not_in d l x :
  x ∉ l → foldl incr_workday d l !! x = d !! x.
Proof.
  revert d. induction l as [|n l IH]; intros d Hx; simpl; [done|].
  apply not_elem_of_cons in Hx as [Hne Hx]. rewrite IH by done.
  unfold incr_workday. destruct (d !! n); [|done].
  by rewrite lookup_insert_ne.
Qed.

Lemma foldl_incr_once d l x c :
  NoDup l → x ∈ l → d !! x = Some c →
  foldl incr_workday d l !! x = Some (c + 1).
Proof.
  revert d. induction l as [|n l IH]; intros d Hnd Hx Hc; simpl.
  - by apply elem_of_nil in Hx.
  - apply NoDup_cons in Hnd as [Hn Hnd].
    apply elem_of_cons in Hx as [->|Hx].
    + rewrite foldl_incr_not_in by done.
      unfold incr_workday. rewrite Hc. apply lookup_insert_eq.
    + apply IH; [done..|].
      unfold incr_workday. destruct (d !! n); [|done].
      rewrite lookup_insert_ne; [done|]. by intros ->.
Qed.
End workday_facts.

(** ** The manager between two days *)

Section manager_facts.
Implicit Types (self : StaffAssignmentManager) (d : datetime) (R : Z).
Implicit Types (l : list string) (n : string).

Lemma consistent_names self n :
  consistent self → n ∈ staff_names self →
  is_Some (staff_workdays self !! n) ∧
  is_Some (staff_worked_yesterday self !! n).
Proof.
  intros [_ Hall] Hn. by apply (proj1 (Forall_forall _ _) Hall).
Qed.

Lemma available_sublist self d :
  consistent self →
  get_available_staff self d `sublist_of` staff_names self.
Proof.
  intros [-> _]. unfold get_available_staff.
  apply fmap_sublist, sublist_filter.
Qed.

Lemma available_in_names self d n :
  consistent self → n ∈ get_available_staff self d → n ∈ staff_names self.
Proof.
  intros Hc Hn. eapply elem_of_sublist; [exact Hn|].
  by apply available_sublist.
Qed.

Lemma get_eligible_staff_Ok self l :
  (∀ n, n ∈ l → is_Some (staff_worked_yesterday self !! n)) →
  get_eligible_staff self l = Ok (filter (rested self) l).
Proof.
  induction l as [|n l IH]; intros Hl; [done|].
  cbn [get_eligible_staff].
  destruct (Hl n) as [b Hb]; [by left|].
  rewrite (bind_of_Ok _ _ b) by by apply dict_get_Ok.
  rewrite IH by (intros x Hx; apply Hl; by right). simpl.
  rewrite filter_cons.
  destruct b.
  - rewrite decide_False; [done|]. unfold rested. by rewrite Hb.
  - rewrite decide_True; [done|]. unfold rested. by rewrite Hb.
Qed.

Lemma sort_by_workdays_Ok self l :
  (∀ n, n ∈ l → is_Some (staff_workdays self !! n)) →
  sort_by_workdays self l = Ok (ranked (workdays_of self) l).
Proof.
  intros Hl. apply list_sort_ranked. intros n Hn.
  destruct (Hl n Hn) as [c Hc]. unfold workdays_of.
  rewrite Hc. by apply dict_get_Ok.
Qed.

Lemma eligible_in_available self l n :
  n ∈ filter (rested self) l → n ∈ l.
Proof. rewrite list_elem_of_filter. tauto. Qed.

(** On a consistent manager [assign_staff_for_day] raises nothing and
    its value is the one described by [decision]. *)
Lemma assign_staff_for_day_Ok self d R label :
  consistent self →
  assign_staff_for_day self d R label
  = Ok (assignment_of self d R label, after_day self d R label).
Proof.
  intros Hc. unfold assign_staff_for_day.
  rewrite get_eligible_staff_Ok; cycle 1.
  { intros n Hn. by apply consistent_names, (available_in_names _ d). }
  cbn [mbind result_bind].
  rewrite (sort_by_workdays_Ok self
             (filter (rested self) (get_available_staff self d))); cycle 1.
  { intros n Hn%eligible_in_available.
    by apply consistent_names, (available_in_names _ d). }
  cbn [mbind result_bind].
  unfold after_day, assignment_of, decision.
  rewrite len_ranked.
  destruct (R <=? len (filter (rested self) (get_available_staff self d))).
  - done.
  - rewrite sort_by_workdays_Ok; cycle 1.
    { intros n Hn. by apply consistent_names, (available_in_names _ d). }
    cbn [mbind result_bind]. by rewrite len_ranked.
Qed.

Lemma decision_sublist self d R :
  consistent self → (decision self d R).1 ⊆ staff_names self.
Proof.
  intros Hc n. unfold decision.
  destruct (R <=? _); cbn [fst]; intros Hn.
  - pose proof (elem_of_sublist _ _ _ Hn (slice_to_sublist _ _)) as Hr.
    apply elem_of_ranked, eligible_in_available in Hr.
    by apply (available_in_names _ d).
  - pose proof (elem_of_sublist _ _ _ Hn (slice_to_sublist _ _)) as Hr.
    apply elem_of_ranked in Hr. by apply (available_in_names _ d).
Qed.

Lemma update_state_consistent self l a :
  consistent self → consistent (record_history (_update_state self l) a).
Proof.
  intros [Hn Hall]. split; [done|]. cbn.
  apply Forall_forall. intros n Hin.
  destruct (proj1 (Forall_forall _ _) Hall n Hin) as [Hwd Hwy]. split.
  - by apply foldl_incr_dom.
  - rewrite lookup_foldl_insert. by rewrite decide_True.
Qed.

Lemma after_day_consistent self d R label :
  consistent self → consistent (after_day self d R label).
Proof. apply update_state_consistent. Qed.

Lemma reset_state_consistent self :
  staff_names self = name <$> staff_list self → consistent (reset_state self).
Proof.
  intros Hn. split; [done|]. cbn. apply Forall_forall. intros n Hin.
  rewrite !lookup_dict_from_keys, !decide_True by done. eauto.
Qed.

Lemma load_state_consistent self state :
  consistent self → consistent (load_state self state).
Proof.
  intros [Hn Hall]. split; [done|]. cbn. apply Forall_forall.
  intros n Hin.
  destruct (proj1 (Forall_forall _ _) Hall n Hin) as [Hwd Hwy]. split.
  - destruct (sd_staff_workdays state); [|done].
    apply lookup_union_is_Some. by right.
  - destruct (sd_staff_worked_yesterday state); [|done].
    apply lookup_union_is_Some. by right.
Qed.
(** The candidates of the branch taken. *)
Lemma decision_prefix self d R :
  ∃ k, (decision self d R).1
       = take k (ranked (workdays_of self)
                   (if (decision self d R).2
                    then get_available_staff self d
                    else filter (rested self) (get_available_staff self d))).
Proof.
  unfold decision. destruct (R <=? _); cbn [fst snd]; apply slice_to_prefix.
Qed.

(** The available staff are the roster members whose holidays do not
    contain the date, by name and in roster order. *)
Lemma get_available_staff_not_on_holiday self d :
  get_available_staff self d
  = name <$> filter (λ s, d ∉ holiday_dates s) (staff_list self).
Proof.
  unfold get_available_staff. f_equal. apply list_filter_iff.
  intros s. unfold is_available. apply bool_decide_eq_true.
Qed.
End manager_facts.

(** ** One processed day *)

Section day_claims.
Implicit Types (self : StaffAssignmentManager) (d : datetime) (R : Z).
Implicit Types (label : option string).

Lemma take_min_length {A : Type} (l : list A) (k : Z) (m : nat) :
  0 ≤ k → length l = m →
  take (Z.to_nat (Z.min k (Z.of_nat m))) l = take (Z.to_nat k) l.
Proof.
  intros Hk <-. destruct (Z.le_gt_cases k (Z.of_nat (length l))).
  - by rewrite Z.min_l.
  - rewrite Z.min_r by lia. rewrite !take_ge; [done|lia..].
Qed.

(** C1.  When the required headcount [R] is non-negative and at most
    the number of eligible staff (the available staff who did not work
    the previous processed day), [assign_staff_for_day] returns an
    Assignment whose selected list is the first [R] names of the eligible
    list ranked by workday count, with [overtime = false] and
    [assigned_count = R]. *)
Theorem normal_branch_first_R self d R label eligible :
  consistent self →
  get_eligible_staff self (get_available_staff self d) = Ok eligible →
  0 ≤ R ≤ len eligible →
  ∃ ranked_eligible a self',
    eligible = filter (rested self) (get_available_staff self d) ∧
    sort_by_workdays self eligible = Ok ranked_eligible ∧
    Sorted (λ x y, workdays_of self x ≤ workdays_of self y)
           ranked_eligible ∧
    assign_staff_for_day self d R label = Ok (a, self') ∧
    assigned_staff a = take (Z.to_nat R) ranked_eligible ∧
    overtime a = false ∧
    assigned_count a = R.
Proof.
  intros Hc Hel HR.
  rewrite get_eligible_staff_Ok in Hel; cycle 1.
  { intros n Hn. by apply consistent_names, (available_in_names _ d). }
  injection Hel as <-.
  set (el := filter (rested self) (get_available_staff self d)) in *.
  exists (ranked (workdays_of self) el), (assignment_of self d R label),
    (after_day self d R label).
  assert ((decision self d R)
          = (slice_to (ranked (workdays_of self) el) R, false)) as Hdec.
  { unfold decision. fold el.
    by rewrite (proj2 (Z.leb_le R (len el))) by lia. }
  split_and!.
  - done.
  - apply sort_by_workdays_Ok. intros n Hn%eligible_in_available.
    by apply consistent_names, (available_in_names _ d).
  - apply ranked_sorted.
  - by apply assign_staff_for_day_Ok.
  - cbn. rewrite Hdec. cbn. apply slice_to_take. lia.
  - cbn. by rewrite Hdec.
  - cbn. rewrite Hdec. cbn. rewrite len_slice_to, len_ranked by lia. lia.
Qed.

(** C2.  When [R] exceeds the number of eligible staff,
    [assign_staff_for_day] takes the overtime branch: the selected list
    is the first [min(R, |available|)] names of the whole available list
    ranked by ascending workday count, [overtime = true], and
    [assigned_count = min(R, |available|)]. *)
Theorem overtime_branch_from_available self d R label eligible :
  consistent self →
  get_eligible_staff self (get_available_staff self d) = Ok eligible →
  len eligible < R →
  ∃ ranked_available a self',
    sort_by_workdays self (get_available_staff self d)
      = Ok ranked_available ∧
    Sorted (λ x y, workdays_of self x ≤ workdays_of self y)
           ranked_available ∧
    ranked_available ≡ₚ get_available_staff self d ∧
    assign_staff_for_day self d R label = Ok (a, self') ∧
    assigned_staff a
      = take (Z.to_nat (Z.min R (len (get_available_staff self d))))
             ranked_available ∧
    overtime a = true ∧
    assigned_count a = Z.min R (len (get_available_staff self d)).
Proof.
  intros Hc Hel HR.
  rewrite get_eligible_staff_Ok in Hel; cycle 1.
  { intros n Hn. by apply consistent_names, (available_in_names _ d). }
  injection Hel as <-.
  set (av := get_available_staff self d) in *.
  pose proof (len_nonneg (filter (rested self) av)) as Hpos.
  exists (ranked (workdays_of self) av), (assignment_of self d R label),
    (after_day self d R label).
  assert ((decision self d R)
          = (slice_to (ranked (workdays_of self) av) R, true)) as Hdec.
  { unfold decision. fold av.
    by rewrite (proj2 (Z.leb_gt R (len (filter (rested self) av))))
      by lia. }
  split_and!.
  - apply sort_by_workdays_Ok. intros n Hn.
    by apply consistent_names, (available_in_names _ d).
  - apply ranked_sorted.
  - apply ranked_perm.
  - by apply assign_staff_for_day_Ok.
  - cbn. rewrite Hdec. cbn. rewrite slice_to_take by lia.
    symmetry. apply take_min_length; [lia|apply ranked_length].
  - cbn. by rewrite Hdec.
  - cbn. rewrite Hdec. cbn. rewrite len_slice_to, len_ranked by lia. done.
Qed.

(** C3.  Whatever branch is taken, the shortage of the returned
    Assignment is [max(0, people_required - |available|)], where the
    available staff are the roster members whose holidays do not contain
    the date; it is computed from their number and not from the number
    assigned. *)
Theorem shortage_from_available self d R label :
  consistent self →
  ∃ a self',
    assign_staff_for_day self d R label = Ok (a, self') ∧
    get_available_staff self d
    = name <$> filter (λ s, d ∉ holiday_dates s) (staff_list self) ∧
    shortage a
    = Z.max 0 (R - len (filter (λ s, d ∉ holiday_dates s)
                               (staff_list self))) ∧
    shortage a = Z.max 0 (R - len (get_available_staff self d)).
Proof.
  intros Hc. eexists _, _. split; [by apply assign_staff_for_day_Ok|].
  split; [apply get_available_staff_not_on_holiday|].
  split; [|done]. cbn [assignment_of shortage].
  rewrite get_available_staff_not_on_holiday. unfold len.
  by rewrite length_fmap.
Qed.
End day_claims.

(** ** Order of two names in a list *)

Section precedes_facts.
Context {A : Type}.
Implicit Types (a b : A) (l : list A).

Lemma precedes_sublist a b l : precedes a b l ↔ [a; b] `sublist_of` l.
Proof.
  split.
  - intros (i & j & Hij & Hi & Hj).
    apply sublist_cons_l. exists (take i l), (drop (S i) l). split.
    + by rewrite take_drop_middle.
    + apply singleton_sublist_l, list_elem_of_lookup.
      exists (j - S i)%nat. rewrite lookup_drop.
      by replace (S i + (j - S i))%nat with j by lia.
  - intros (k1 & k2 & -> & Hb)%sublist_cons_l.
    apply singleton_sublist_l, list_elem_of_lookup in Hb as [j Hj].
    exists (length k1), (length k1 + S j)%nat. split_and!.
    + lia.
    + by rewrite list_lookup_middle.
    + rewrite lookup_app_r by lia.
      by replace (length k1 + S j - length k1)%nat with (S j) by lia.
Qed.

Lemma precedes_weaken a b l1 l2 :
  l1 `sublist_of` l2 → precedes a b l1 → precedes a b l2.
Proof.
  rewrite !precedes_sublist. intros H12 H1. by etrans.
Qed.

Lemma precedes_or a b l :
  a ∈ l → b ∈ l → a ≠ b → precedes a b l ∨ precedes b a l.
Proof.
  intros [i Hi]%list_elem_of_lookup [j Hj]%list_elem_of_lookup Hne.
  destruct (lt_eq_lt_dec i j) as [[Hlt| ->]|Hgt].
  - left. by exists i, j.
  - congruence.
  - right. by exists j, i.
Qed.

Lemma precedes_asym a b l : NoDup l → precedes a b l → ¬ precedes b a l.
Proof.
  intros Hnd (i & j & Hij & Hi & Hj) (i' & j' & Hij' & Hi' & Hj').
  pose proof (NoDup_lookup _ _ _ _ Hnd Hi Hj').
  pose proof (NoDup_lookup _ _ _ _ Hnd Hj Hi'). lia.
Qed.
End precedes_facts.

Section stability_claims.
Implicit Types (self : StaffAssignmentManager) (d : datetime) (R : Z).

Lemma workdays_of_eq self x y :
  staff_workdays self !! x = staff_workdays self !! y →
  workdays_of self x = workdays_of self y.
Proof. unfold workdays_of. by intros ->. Qed.

(** The sort of the manager keeps names of equal count in the order of
    the list it is given. *)
Lemma sort_by_workdays_stable self l r x y :
  sort_by_workdays self l = Ok r →
  precedes x y r →
  staff_workdays self !! x = staff_workdays self !! y →
  is_Some (staff_workdays self !! x) →
  precedes x y l.
Proof.
  unfold sort_by_workdays, list_sort. intros Hs Hxy Heq [c Hc].
  apply bind_Ok in Hs as (dec & Hdec & [= <-]).
  assert (Forall (λ p, staff_workdays self !! p.2 = Some p.1) dec
          ∧ snd <$> dec = l) as [Hkey <-].
  { clear Hxy. revert dec Hdec.
    induction l as [|n l IH]; intros dec Hdec; cbn in Hdec.
    - by simplify_eq.
    - apply bind_Ok in Hdec as (k & Hk%dict_get_Ok & Hdec).
      apply bind_Ok in Hdec as (rest & Hrest & [= <-]).
      destruct (IH _ Hrest) as [? ?]. split; [by constructor|].
      cbn. by f_equal. }
  apply precedes_sublist in Hxy. apply precedes_sublist.
  assert (Forall (keyed_by (workdays_of self)) dec) as Hkb.
  { eapply Forall_impl; [exact Hkey|]. intros p Hp.
    unfold keyed_by, workdays_of. by rewrite Hp. }
  apply (filter_sublist_mono (λ n, workdays_of self n = c)) in Hxy.
  rewrite (filter_snd_keyed (workdays_of self) c) in Hxy
    by by apply sort_keyed_keyed.
  rewrite sort_keyed_filter in Hxy.
  rewrite <-(filter_snd_keyed (workdays_of self) c) in Hxy by done.
  rewrite !filter_cons_True, filter_nil in Hxy;
    [|unfold workdays_of; by rewrite <-?Heq, Hc..].
  etrans; [exact Hxy|]. apply sublist_filter.
Qed.

Lemma decision_stable self d R x y :
  consistent self →
  precedes x y (decision self d R).1 →
  staff_workdays self !! x = staff_workdays self !! y →
  precedes x y (staff_names self).
Proof.
  intros Hc Hxy Heq%workdays_of_eq.
  apply precedes_sublist. apply precedes_sublist in Hxy.
  etrans; [|by apply (available_sublist self d)].
  unfold decision in Hxy. destruct (R <=? _); cbn [fst] in Hxy.
  - etrans; [|apply (sublist_filter (rested self))].
    apply (ranked_stable (workdays_of self)); [|done].
    etrans; [exact Hxy|]. apply slice_to_sublist.
  - apply (ranked_stable (workdays_of self)); [|done].
    etrans; [exact Hxy|]. apply slice_to_sublist.
Qed.

Lemma precedes_take {A : Type} (x y : A) (l : list A) (k : nat) :
  NoDup l → precedes x y l → y ∈ take k l →
  x ∈ take k l ∧ precedes x y (take k l).
Proof.
  intros Hnd (i & j & Hij & Hi & Hj) Hy.
  apply elem_of_take in Hy as (j' & Hj' & Hk).
  pose proof (NoDup_lookup _ _ _ _ Hnd Hj Hj') as <-.
  assert (take k l !! i = Some x) as Hxi
    by (rewrite lookup_take_lt by lia; done).
  split.
  - apply list_elem_of_lookup. by exists i.
  - exists i, j. split; [done|]. split; [done|].
    by rewrite lookup_take_lt by lia.
Qed.

(** On a roster without repeated names the ranking puts, of two names of
    equal count, the one earlier in the roster first. *)
Lemma ranked_follows_roster self (pool : list string) x y :
  pool `sublist_of` staff_names self →
  NoDup (staff_names self) →
  x ∈ pool → y ∈ pool →
  staff_workdays self !! x = staff_workdays self !! y →
  precedes x y (staff_names self) →
  precedes x y (ranked (workdays_of self) pool).
Proof.
  intros Hsub Hnd Hx Hy Heq Hxy.
  assert (x ≠ y) as Hne.
  { intros ->. by apply (precedes_asym y y _ Hnd Hxy). }
  apply (elem_of_ranked (workdays_of self)) in Hx, Hy.
  destruct (precedes_or x y _ Hx Hy Hne) as [|Hyx]; [done|exfalso].
  apply precedes_sublist in Hyx.
  apply (ranked_stable (workdays_of self)) in Hyx;
    [|symmetry; by apply workdays_of_eq].
  apply (precedes_asym x y _ Hnd Hxy), precedes_sublist.
  by etrans.
Qed.

(** C4.  In either branch the ranking is stable with respect to the
    roster order.  The list that is ranked is the eligible list on a
    normal day and the available list on an overtime day, and the
    selected list is a prefix of its ranking.  Two names of equal workday
    count stand in the ranked list, and so in the selected list, in the
    order in which they stand in [staff_names]: they are never swapped.
    On a roster without repeated names, of two candidates of equal count
    the one earlier in the roster precedes the other in the ranked list,
    and whenever the later one is selected the earlier one is selected
    too, before it. *)
Theorem selection_keeps_roster_order self d R label :
  consistent self →
  ∃ eligible pool ranked_pool a self',
    assign_staff_for_day self d R label = Ok (a, self') ∧
    get_eligible_staff self (get_available_staff self d) = Ok eligible ∧
    pool = (if overtime a then get_available_staff self d else eligible) ∧
    sort_by_workdays self pool = Ok ranked_pool ∧
    (∃ k, assigned_staff a = take k ranked_pool) ∧
    (∀ x y,
       precedes x y ranked_pool →
       staff_workdays self !! x = staff_workdays self !! y →
       precedes x y (staff_names self)) ∧
    (∀ x y,
       precedes x y (assigned_staff a) →
       staff_workdays self !! x = staff_workdays self !! y →
       precedes x y (staff_names self)) ∧
    (NoDup (staff_names self) →
     (∀ x y,
        x ∈ pool → y ∈ pool →
        staff_workdays self !! x = staff_workdays self !! y →
        precedes x y (staff_names self) →
        precedes x y ranked_pool) ∧
     (∀ x y,
        x ∈ pool → y ∈ assigned_staff a →
        staff_workdays self !! x = staff_workdays self !! y →
        precedes x y (staff_names self) →
        x ∈ assigned_staff a ∧ precedes x y (assigned_staff a)) ∧
     (∀ x y,
        x ∈ assigned_staff a → y ∈ assigned_staff a →
        staff_workdays self !! x = staff_workdays self !! y →
        precedes x y (staff_names self) →
        precedes x y (assigned_staff a))).
Proof.
  intros Hc.
  set (av := get_available_staff self d).
  set (pool := if (decision self d R).2 then av
               else filter (rested self) av).
  assert (pool `sublist_of` staff_names self) as Hsub.
  { unfold pool. destruct (decision self d R).2.
    - by apply available_sublist.
    - etrans; [apply sublist_filter|by apply available_sublist]. }
  destruct (decision_prefix self d R) as [k Hk]. fold av pool in Hk.
  assert (∀ x y,
            precedes x y (ranked (workdays_of self) pool) →
            staff_workdays self !! x = staff_workdays self !! y →
            precedes x y (staff_names self)) as Hranked.
  { intros x y Hxy Heq%workdays_of_eq.
    apply precedes_sublist. apply precedes_sublist in Hxy.
    etrans; [|exact Hsub]. by apply (ranked_stable (workdays_of self)). }
  exists (filter (rested self) av), pool, (ranked (workdays_of self) pool),
    (assignment_of self d R label), (after_day self d R label).
  cbn [assignment_of assigned_staff overtime]. split_and!.
  - by apply assign_staff_for_day_Ok.
  - apply get_eligible_staff_Ok. intros n Hn.
    by apply consistent_names, (available_in_names _ d).
  - done.
  - apply sort_by_workdays_Ok. intros n Hn.
    apply consistent_names; [done|]. by apply (elem_of_sublist _ _ _ Hn).
  - by exists k.
  - exact Hranked.
  - intros x y. by apply decision_stable.
  - intros Hnd.
    assert (NoDup (ranked (workdays_of self) pool)) as Hndr.
    { rewrite ranked_perm. by eapply sublist_NoDup. }
    assert (∀ x y,
              x ∈ pool → y ∈ (decision self d R).1 →
              staff_workdays self !! x = staff_workdays self !! y →
              precedes x y (staff_names self) →
              x ∈ (decision self d R).1
              ∧ precedes x y (decision self d R).1) as Hsel.
    { intros x y Hx Hy Heq Hxy. rewrite Hk in Hy |- *.
      apply precedes_take; [done| |done].
      apply ranked_follows_roster; try done.
      apply (elem_of_ranked (workdays_of self)).
      eapply elem_of_sublist; [exact Hy|apply sublist_take]. }
    split_and!.
    + intros x y. by apply ranked_follows_roster.
    + exact Hsel.
    + intros x y Hx Hy Heq Hxy. apply Hsel; try done.
      apply (elem_of_ranked (workdays_of self)).
      rewrite Hk in Hx.
      eapply elem_of_sublist; [exact Hx|apply sublist_take].
Qed.
End stability_claims.

(** ** Several processed days *)

#[global] Instance same_registry_equiv : Equivalence same_registry.
Proof.
  split.
  - by intros s.
  - intros s1 s2 (? & ? & ?). by split_and!.
  - intros s1 s2 s3 (? & ? & ?) (? & ? & ?). split_and!; by etrans.
Qed.

Section run_facts.
Implicit Types (self : StaffAssignmentManager) (days : list DayForecast).
Implicit Types (n : string).

Lemma assign_days_cons self r days :
  consistent self →
  assign_days self (r :: days)
  = '(l, s) ← assign_days
                (after_day self (row_date r) (row_people_required r)
                           (row_label r)) days;
    Ok (assignment_of self (row_date r) (row_people_required r)
                      (row_label r) :: l, s).
Proof.
  intros Hc. cbn [assign_days].
  by rewrite assign_staff_for_day_Ok.
Qed.

Lemma after_day_same_registry self d R label :
  same_registry (after_day self d R label) self.
Proof. done. Qed.

(** The loop raises nothing on a consistent manager, whatever the
    required headcounts are. *)
Lemma assign_days_Ok self days :
  consistent self →
  ∃ l self',
    assign_days self days = Ok (l, self') ∧
    consistent self' ∧ same_registry self' self ∧
    length l = length days.
Proof.
  revert self. induction days as [|r days IH]; intros self Hc.
  - by exists [], self.
  - rewrite assign_days_cons by done.
    destruct (IH _ (after_day_consistent self (row_date r)
                      (row_people_required r) (row_label r) Hc))
      as (l & s & -> & Hcs & Hreg & Hlen).
    eexists _, _. split; [done|]. split_and!; [done| |by cbn; f_equal].
    etrans; [exact Hreg|]. apply after_day_same_registry.
Qed.

Lemma after_day_flag self d R label n :
  n ∈ staff_names self →
  staff_worked_yesterday (after_day self d R label) !! n
  = Some (bool_decide (n ∈ assigned_staff (assignment_of self d R label))).
Proof.
  intros Hn. cbn. rewrite lookup_foldl_insert. by rewrite decide_True.
Qed.

Lemma after_day_history self d R label :
  assignment_history (after_day self d R label)
  = assignment_history self ++ [assignment_of self d R label].
Proof. done. Qed.


End run_facts.

(** ** Workday counters over a horizon *)

Section counter_claims.
Implicit Types (self : StaffAssignmentManager) (days : list DayForecast).
Implicit Types (n : string).

Lemma sum_values_zero (m : gmap string Z) :
  (∀ n c, m !! n = Some c → c = 0) → sum_values m = 0.
Proof.
  induction m as [|n c m Hn IH] using map_ind; intros Hz.
  - apply sum_values_empty.
  - rewrite sum_values_insert_fresh by done.
    rewrite (Hz n c) by apply lookup_insert_eq.
    rewrite IH; [done|]. intros k ck Hk. apply (Hz k).
    rewrite lookup_insert_ne; [done|]. intros ->. congruence.
Qed.

Lemma total_workdays_reset self : total_workdays (reset_state self) = 0.
Proof.
  apply sum_values_zero. intros n c. cbn.
  rewrite lookup_dict_from_keys. case_decide; congruence.
Qed.

Lemma after_day_total self d R label :
  consistent self →
  total_workdays (after_day self d R label)
  = total_workdays self + assigned_count (assignment_of self d R label).
Proof.
  intros Hc. unfold total_workdays. cbn.
  apply foldl_incr_sum. intros n Hn.
  by apply consistent_names, (decision_sublist self d R).
Qed.

Lemma assign_days_counters self days l self' :
  consistent self →
  assign_days self days = Ok (l, self') →
  total_workdays self' = total_workdays self + sum_Z assigned_count l ∧
  (∀ n c, staff_workdays self !! n = Some c →
          ∃ c', staff_workdays self' !! n = Some c' ∧ c ≤ c') ∧
  (∀ n, is_Some (staff_workdays self' !! n) →
        is_Some (staff_workdays self !! n)).
Proof.
  revert self l. induction days as [|r days IH]; intros self l Hc Hrun.
  - cbn in Hrun. injection Hrun as <- <-. split_and!.
    + cbn. lia.
    + intros n c Hn. exists c. split; [done|lia].
    + done.
  - rewrite assign_days_cons in Hrun by done.
    apply bind_Ok in Hrun as ([l1 s1] & Hrun & [= <- <-]).
    pose proof (after_day_consistent self (row_date r)
                  (row_people_required r) (row_label r) Hc) as Hc1.
    destruct (IH _ _ Hc1 Hrun) as (Hsum & Hmono & Hdom). split_and!.
    + rewrite Hsum, after_day_total by done.
      unfold sum_Z. cbn [foldr]. lia.
    + intros n c Hn.
      destruct (foldl_incr_mono _
                  (decision self (row_date r) (row_people_required r)).1
                  _ _ Hn) as (c1 & Hc1n & Hle1).
      destruct (Hmono n c1 Hc1n) as (c2 & Hc2 & Hle2).
      exists c2. split; [done|lia].
    + intros n Hn%Hdom. by apply foldl_incr_dom in Hn.
Qed.

(** C6.  From the reset state, after any number of processed days every
    workday counter is a non-negative integer, the counters add up to
    the sum of [assigned_count] over the Assignments of those days, and
    processing further days never lowers a counter.  (The roster need
    not even be free of repeated names.) *)
Theorem workday_counters_over_horizon self days :
  staff_names self = name <$> staff_list self →
  ∃ l self',
    assign_days (reset_state self) days = Ok (l, self') ∧
    length l = length days ∧
    (∀ n c, staff_workdays self' !! n = Some c → 0 ≤ c) ∧
    total_workdays self' = sum_Z assigned_count l ∧
    (∀ more, ∃ l2 self'',
       assign_days self' more = Ok (l2, self'') ∧
       ∀ n c, staff_workdays self' !! n = Some c →
              ∃ c', staff_workdays self'' !! n = Some c' ∧ c ≤ c').
Proof.
  intros Hreg. pose proof (reset_state_consistent self Hreg) as Hc.
  destruct (assign_days_Ok _ days Hc) as (l & s & Hrun & Hcs & _ & Hlen).
  destruct (assign_days_counters _ _ _ _ Hc Hrun) as (Hsum & Hmono & Hdom).
  exists l, s. split_and!; [done..| | |].
  - intros n c Hn.
    destruct (Hdom n) as [c0 Hc0]; [by eexists|].
    destruct (Hmono n c0 Hc0) as (c' & Hc' & Hle).
    cbn in Hc0. rewrite lookup_dict_from_keys in Hc0.
    case_decide; simplify_eq. lia.
  - rewrite Hsum, total_workdays_reset. lia.
  - intros more.
    destruct (assign_days_Ok _ more Hcs) as (l2 & s2 & Hrun2 & _).
    exists l2, s2. split; [done|].
    by destruct (assign_days_counters _ _ _ _ Hcs Hrun2) as (_ & ? & _).
Qed.

(** On a roster without repeated names a selected member gains exactly
    one day and every other counter is unchanged. *)
Lemma after_day_increment self d R label n c :
  consistent self → NoDup (staff_names self) →
  staff_workdays self !! n = Some c →
  staff_workdays (after_day self d R label) !! n
  = Some (if decide (n ∈ (decision self d R).1) then c + 1 else c).
Proof.
  intros Hc Hnd Hn. cbn. case_decide as Hin.
  - apply foldl_incr_once; [|done..].
    unfold decision. destruct (R <=? _); cbn [fst].
    + eapply sublist_NoDup; [|apply slice_to_sublist].
      rewrite ranked_perm. apply NoDup_filter.
      eapply sublist_NoDup; [exact Hnd|by apply available_sublist].
    + eapply sublist_NoDup; [|apply slice_to_sublist].
      rewrite ranked_perm.
      eapply sublist_NoDup; [exact Hnd|by apply available_sublist].
  - by rewrite foldl_incr_not_in.
Qed.
End counter_claims.

(** ** Reset and replay *)

Section replay_claims.
Implicit Types (self other : StaffAssignmentManager).
Implicit Types (days : list DayForecast).

(** [reset_state] forgets everything but the roster. *)
Lemma reset_state_same_registry self other :
  same_registry other self → reset_state other = reset_state self.
Proof. intros (Hl & Hn & Hk). unfold reset_state. by rewrite Hl, Hn, Hk. Qed.

Lemma load_state_same_registry self state :
  same_registry (load_state self state) self.
Proof. done. Qed.

Lemma reset_state_keeps_registry self : same_registry (reset_state self) self.
Proof. done. Qed.

Lemma assign_week_same_registry self df res self' :
  consistent self →
  assign_week self df = Ok (res, self') → same_registry self' self.
Proof.
  intros Hc. unfold assign_week. case_bool_decide; [done|].
  destruct (assign_days_Ok self (rows df) Hc) as (l & s & -> & _ & Hreg & _).
  cbn. by intros [= <- <-].
Qed.

(** C7.  Calling [reset_state] and replaying one sequence of day
    requests on one roster gives the same Assignments, in the same
    order, whatever state the manager was in before the reset, in
    particular the state left by any earlier run: the replay from
    [other] (any manager object over the roster of [self]) returns what
    the run from [self] returns, and neither raises. *)
Theorem replay_after_reset self other days :
  same_registry other self →
  staff_names self = name <$> staff_list self →
  ∃ l final,
    assign_days (reset_state self) days = Ok (l, final) ∧
    assign_days (reset_state other) days = Ok (l, final) ∧
    ∀ df, assign_week (reset_state other) df
          = assign_week (reset_state self) df.
Proof.
  intros Hreg Hnames.
  destruct (assign_days_Ok _ days (reset_state_consistent self Hnames))
    as (l & final & Hrun & _).
  exists l, final. rewrite (reset_state_same_registry self other Hreg).
  by split_and!.
Qed.

(** The state left by a run is a state over the same roster, so the
    replay after it is covered. *)
Lemma replay_after_run self days0 l0 self1 days :
  consistent self →
  assign_days self days0 = Ok (l0, self1) →
  assign_days (reset_state self1) days = assign_days (reset_state self) days.
Proof.
  intros Hc Hrun0.
  destruct (assign_days_Ok self days0 Hc) as (l & s & Hrun & _ & Hreg & _).
  rewrite Hrun in Hrun0. injection Hrun0 as <- <-.
  by rewrite (reset_state_same_registry self s Hreg).
Qed.
End replay_claims.

(** ** Inputs the specification calls invalid *)

Section unvalidated_inputs.
Implicit Types (self : StaffAssignmentManager) (d : datetime) (R : Z).

(** C8, as the code behaves.  [assign_staff_for_day] and the loop of
    [assign_week] do not validate [people_required].  On a consistent
    manager a negative headcount raises nothing: the day is processed on
    the normal branch ([overtime = false], [shortage = 0]) and the state
    is updated as on any day, the Assignment being appended to the
    history and the flags recomputed from its selected list; the loop
    returns one Assignment per row whatever the signs of the
    headcounts. *)
Theorem negative_headcount_is_processed self d R label :
  consistent self →
  R < 0 →
  (∃ a self',
     assign_staff_for_day self d R label = Ok (a, self') ∧
     people_required a = R ∧
     overtime a = false ∧
     shortage a = 0 ∧
     assignment_history self' = assignment_history self ++ [a] ∧
     ∀ n, n ∈ staff_names self' →
       staff_worked_yesterday self' !! n
       = Some (bool_decide (n ∈ assigned_staff a))) ∧
  (∀ days, ∃ l self',
     assign_days self days = Ok (l, self') ∧ length l = length days).
Proof.
  intros Hc HR. split.
  - eexists _, _. split; [by apply assign_staff_for_day_Ok|].
    pose proof (len_nonneg (get_available_staff self d)) as Hav.
    pose proof (len_nonneg
                  (filter (rested self) (get_available_staff self d)))
      as Hel.
    split_and!.
    + done.
    + cbn. unfold decision. by rewrite (proj2 (Z.leb_le R _)) by lia.
    + cbn. lia.
    + done.
    + intros n Hn. by apply after_day_flag.
  - intros days.
    destruct (assign_days_Ok self days Hc) as (l & s & ? & _ & _ & ?).
    by exists l, s.
Qed.

Lemma create_staff_lookup_snoc (staff : list Staff) (s : Staff) :
  _create_staff_lookup (staff ++ [s])
  = <[name s := s]> (_create_staff_lookup staff).
Proof. unfold _create_staff_lookup. by rewrite foldl_app. Qed.

(** Of several members with one name the lookup holds the last. *)
Lemma create_staff_lookup_last (staff : list Staff) (n : string) :
  _create_staff_lookup staff !! n = last (filter (λ s, name s = n) staff).
Proof.
  induction staff as [|s staff IH] using rev_ind; [done|].
  rewrite create_staff_lookup_snoc, filter_app, filter_cons, filter_nil.
  case_decide as Hs.
  - subst n. by rewrite lookup_insert_eq, last_snoc.
  - rewrite lookup_insert_ne by done. by rewrite app_nil_r.
Qed.

(** C9, as the code behaves.  The constructor checks nothing and never
    fails: from any staff list, repeated names included, it returns a
    manager that holds the list, its names in order (repetitions kept),
    a counter 0 and a flag false for every name, an empty history, and
    a name lookup that yields the last member of each name. *)
Theorem constructor_accepts_any_list (staff : list Staff) :
  ∃ m,
    __init__ staff = Ok m ∧
    staff_list m = staff ∧
    staff_names m = name <$> staff ∧
    consistent m ∧
    (∀ n, n ∈ staff_names m →
       staff_workdays m !! n = Some 0 ∧
       staff_worked_yesterday m !! n = Some false) ∧
    (∀ n, staff_lookup m !! n = last (filter (λ s, name s = n) staff)) ∧
    assignment_history m = [].
Proof.
  eexists. split; [reflexivity|]. split_and!; try done.
  - by apply reset_state_consistent.
  - intros n Hn.
    cbn [reset_state staff_workdays staff_worked_yesterday staff_names]
      in *.
    by rewrite !lookup_dict_from_keys, !decide_True.
  - intros n. apply create_staff_lookup_last.
Qed.
End unvalidated_inputs.

(** ** The scenario of the specification, evaluated *)

Lemma init_roster : __init__ roster = Ok fresh.
Proof. reflexivity. Qed.

Lemma fresh_consistent : consistent fresh.
Proof. apply (bool_decide_unpack _). vm_compute. exact I. Defined.

Lemma after_day1_consistent : consistent after_day1.
Proof. apply (bool_decide_unpack _). vm_compute. exact I. Defined.

(** The three days of the scenario of the specification. *)
Example scenario_three_days :
  ∃ final,
    assign_days fresh
      [mkDayForecast 1 2 None; mkDayForecast 2 2 None;
       mkDayForecast 3 1 None]
    = Ok ([mkAssignment 1 "Monday" 2 ["A"; "B"] 2 false 0;
           mkAssignment 2 "Tuesday" 2 ["C"; "A"] 2 true 0;
           mkAssignment 3 "Wednesday" 1 ["B"] 1 false 0], final) ∧
    staff_workdays final !! "A"%string = Some 2 ∧
    staff_workdays final !! "B"%string = Some 2 ∧
    staff_workdays final !! "C"%string = Some 1.
Proof. eexists. split; [vm_compute; reflexivity|]. by vm_compute. Qed.

Lemma normal_branch_first_R_witness :
  consistent fresh ∧
  get_eligible_staff fresh (get_available_staff fresh 1)
    = Ok ["A"; "B"; "C"]%string ∧
  0 ≤ 2 ≤ len ["A"; "B"; "C"]%string ∧
  ∃ ranked_eligible a self',
    ["A"; "B"; "C"]%string
      = filter (rested fresh) (get_available_staff fresh 1) ∧
    sort_by_workdays fresh ["A"; "B"; "C"]%string = Ok ranked_eligible ∧
    Sorted (λ x y, workdays_of fresh x ≤ workdays_of fresh y)
           ranked_eligible ∧
    assign_staff_for_day fresh 1 2 None = Ok (a, self') ∧
    assigned_staff a = take (Z.to_nat 2) ranked_eligible ∧
    overtime a = false ∧
    assigned_count a = 2.
Proof.
  assert (0 ≤ 2 ≤ len ["A"; "B"; "C"]%string) as Hlen
    by (unfold len; simpl; lia).
  split; [exact fresh_consistent|]. split; [reflexivity|].
  split; [exact Hlen|].
  exact (normal_branch_first_R fresh 1 2 None ["A"; "B"; "C"]%string
           fresh_consistent eq_refl Hlen).
Defined.

Lemma overtime_branch_from_available_witness :
  consistent after_day1 ∧
  get_eligible_staff after_day1 (get_available_staff after_day1 2)
    = Ok ["C"]%string ∧
  len ["C"]%string < 2 ∧
  ∃ ranked_available a self',
    sort_by_workdays after_day1 (get_available_staff after_day1 2)
      = Ok ranked_available ∧
    Sorted (λ x y, workdays_of after_day1 x ≤ workdays_of after_day1 y)
           ranked_available ∧
    ranked_available ≡ₚ get_available_staff after_day1 2 ∧
    assign_staff_for_day after_day1 2 2 None = Ok (a, self') ∧
    assigned_staff a
      = take (Z.to_nat (Z.min 2 (len (get_available_staff after_day1 2))))
             ranked_available ∧
    overtime a = true ∧
    assigned_count a = Z.min 2 (len (get_available_staff after_day1 2)).
Proof.
  assert (len ["C"]%string < 2) as Hlen by (unfold len; simpl; lia).
  split; [exact after_day1_consistent|]. split; [reflexivity|].
  split; [exact Hlen|].
  exact (overtime_branch_from_available after_day1 2 2 None ["C"]%string
           after_day1_consistent eq_refl Hlen).
Defined.

Lemma shortage_from_available_witness :
  consistent fresh ∧
  len (filter (λ s, 3 ∉ holiday_dates s) (staff_list fresh)) = 2 ∧
  ∃ a self',
    assign_staff_for_day fresh 3 3 None = Ok (a, self') ∧
    get_available_staff fresh 3
    = name <$> filter (λ s, 3 ∉ holiday_dates s) (staff_list fresh) ∧
    shortage a
    = Z.max 0 (3 - len (filter (λ s, 3 ∉ holiday_dates s)
                               (staff_list fresh))) ∧
    shortage a = Z.max 0 (3 - len (get_available_staff fresh 3)).
Proof.
  split; [exact fresh_consistent|]. split; [reflexivity|].
  exact (shortage_from_available fresh 3 3 None fresh_consistent).
Defined.

(** On the first day all three counters are 0: A, B and C are tied, the
    ranked list is the roster order, and A and B are selected. *)
Lemma selection_keeps_roster_order_witness :
  consistent fresh ∧
  staff_workdays fresh !! "A"%string = staff_workdays fresh !! "B"%string ∧
  staff_workdays fresh !! "B"%string = staff_workdays fresh !! "C"%string ∧
  sort_by_workdays fresh (get_available_staff fresh 1)
  = Ok ["A"; "B"; "C"]%string ∧
  (∃ a self',
     assign_staff_for_day fresh 1 2 None = Ok (a, self') ∧
     overtime a = false ∧
     assigned_staff a = ["A"; "B"]%string) ∧
  ∃ eligible pool ranked_pool a self',
    assign_staff_for_day fresh 1 2 None = Ok (a, self') ∧
    get_eligible_staff fresh (get_available_staff fresh 1) = Ok eligible ∧
    pool = (if overtime a then get_available_staff fresh 1 else eligible) ∧
    sort_by_workdays fresh pool = Ok ranked_pool ∧
    (∃ k, assigned_staff a = take k ranked_pool) ∧
    (∀ x y,
       precedes x y ranked_pool →
       staff_workdays fresh !! x = staff_workdays fresh !! y →
       precedes x y (staff_names fresh)) ∧
    (∀ x y,
       precedes x y (assigned_staff a) →
       staff_workdays fresh !! x = staff_workdays fresh !! y →
       precedes x y (staff_names fresh)) ∧
    (NoDup (staff_names fresh) →
     (∀ x y,
        x ∈ pool → y ∈ pool →
        staff_workdays fresh !! x = staff_workdays fresh !! y →
        precedes x y (staff_names fresh) →
        precedes x y ranked_pool) ∧
     (∀ x y,
        x ∈ pool → y ∈ assigned_staff a →
        staff_workdays fresh !! x = staff_workdays fresh !! y →
        precedes x y (staff_names fresh) →
        x ∈ assigned_staff a ∧ precedes x y (assigned_staff a)) ∧
     (∀ x y,
        x ∈ assigned_staff a → y ∈ assigned_staff a →
        staff_workdays fresh !! x = staff_workdays fresh !! y →
        precedes x y (staff_names fresh) →
        precedes x y (assigned_staff a))).
Proof.
  split; [exact fresh_consistent|].
  split; [reflexivity|]. split; [reflexivity|]. split; [reflexivity|].
  split; [eexists _, _; split; [reflexivity|]; split; reflexivity|].
  exact (selection_keeps_roster_order fresh 1 2 None fresh_consistent).
Defined.



Lemma workday_counters_over_horizon_witness :
  staff_names fresh = name <$> staff_list fresh ∧
  ∃ l self',
    assign_days (reset_state fresh)
      [mkDayForecast 1 2 None; mkDayForecast 2 2 None] = Ok (l, self') ∧
    length l = 2%nat ∧
    (∀ n c, staff_workdays self' !! n = Some c → 0 ≤ c) ∧
    total_workdays self' = sum_Z assigned_count l ∧
    (∀ more, ∃ l2 self'',
       assign_days self' more = Ok (l2, self'') ∧
       ∀ n c, staff_workdays self' !! n = Some c →
              ∃ c', staff_workdays self'' !! n = Some c' ∧ c ≤ c').
Proof.
  split; [reflexivity|].
  exact (workday_counters_over_horizon fresh
           [mkDayForecast 1 2 None; mkDayForecast 2 2 None] eq_refl).
Defined.

Lemma replay_after_reset_witness :
  same_registry after_day1 fresh ∧
  staff_names fresh = name <$> staff_list fresh ∧
  ∃ l final,
    assign_days (reset_state fresh)
      [mkDayForecast 1 2 None; mkDayForecast 2 2 None] = Ok (l, final) ∧
    assign_days (reset_state after_day1)
      [mkDayForecast 1 2 None; mkDayForecast 2 2 None] = Ok (l, final) ∧
    ∀ df, assign_week (reset_state after_day1) df
          = assign_week (reset_state fresh) df.
Proof.
  assert (same_registry after_day1 fresh) as Hreg
    by (split_and!; reflexivity).
  split; [exact Hreg|]. split; [reflexivity|].
  exact (replay_after_reset fresh after_day1
           [mkDayForecast 1 2 None; mkDayForecast 2 2 None] Hreg eq_refl).
Defined.

Lemma negative_headcount_is_processed_witness :
  consistent fresh ∧
  -1 < 0 ∧
  (∃ a self',
     assign_staff_for_day fresh 1 (-1) None = Ok (a, self') ∧
     people_required a = -1 ∧
     overtime a = false ∧
     shortage a = 0 ∧
     assignment_history self' = assignment_history fresh ++ [a] ∧
     ∀ n, n ∈ staff_names self' →
       staff_worked_yesterday self' !! n
       = Some (bool_decide (n ∈ assigned_staff a))) ∧
  (∀ days, ∃ l self',
     assign_days fresh days = Ok (l, self') ∧ length l = length days).
Proof.
  assert (-1 < 0) as Hneg by lia.
  split; [exact fresh_consistent|]. split; [exact Hneg|].
  exact (negative_headcount_is_processed fresh 1 (-1) None
           fresh_consistent Hneg).
Defined.

(** C8 as written fails: on the roster A, B, C a required headcount of -1
    is not rejected.  The call returns an Assignment (A and B selected, the
    list without its last name), and the state has changed: A has a
    workday, A's flag is set, and the history has an entry. *)
Lemma negative_headcount_not_rejected :
  (∀ e, assign_staff_for_day fresh 1 (-1) None ≠ Raise e) ∧
  ∃ a self',
    assign_staff_for_day fresh 1 (-1) None = Ok (a, self') ∧
    assigned_staff a = ["A"; "B"]%string ∧
    staff_workdays fresh !! "A"%string = Some 0 ∧
    staff_workdays self' !! "A"%string = Some 1 ∧
    staff_worked_yesterday fresh !! "A"%string = Some false ∧
    staff_worked_yesterday self' !! "A"%string = Some true ∧
    assignment_history fresh = [] ∧
    assignment_history self' = [a] ∧
    ∃ res self'',
      assign_week fresh
        (mkDataFrame ["date"; "people_required"]%string
                     [mkDayForecast 1 (-1) None])
      = Ok (res, self'') ∧
      assignments res = [a] ∧
      staff_workdays self'' !! "A"%string = Some 1.
Proof.
  split.
  - intros e. vm_compute. discriminate.
  - eexists _, _. split; [vm_compute; reflexivity|].
    split_and!; try (vm_compute; reflexivity).
    eexists _, _. split; [vm_compute; reflexivity|].
    split; vm_compute; reflexivity.
Qed.

(** C9 as written fails: two members named A are accepted.  The
    constructor returns a manager, and that manager assigns staff. *)
Lemma duplicate_names_accepted :
  (∀ e, __init__ [mkStaff 1 "A" []; mkStaff 2 "A" []] ≠ Raise e) ∧
  ∃ m a m',
    __init__ [mkStaff 1 "A" []; mkStaff 2 "A" []] = Ok m ∧
    staff_names m = ["A"; "A"]%string ∧
    assign_staff_for_day m 1 1 None = Ok (a, m') ∧
    assigned_staff a = ["A"]%string.
Proof.
  split; [intros e; discriminate|].
  eexists _, _, _. split; [reflexivity|].
  split; [reflexivity|]. split; vm_compute; reflexivity.
Qed.

(** * Further properties of the engine *)

(** ** Who can be selected *)

Section selection_facts.
Implicit Types (self : StaffAssignmentManager) (d : datetime) (R : Z).
Implicit Types (label : option string) (n : string).

Lemma decision_in_pool self d R :
  (decision self d R).1
  `sublist_of`
  ranked (workdays_of self)
         (if (decision self d R).2
          then get_available_staff self d
          else filter (rested self) (get_available_staff self d)).
Proof.
  unfold decision. destruct (R <=? _); cbn [fst snd]; apply slice_to_sublist.
Qed.

Lemma decision_available self d R n :
  n ∈ (decision self d R).1 → n ∈ get_available_staff self d.
Proof.
  intros Hn.
  pose proof (elem_of_sublist _ _ _ Hn (decision_in_pool self d R)) as Hr.
  apply elem_of_ranked in Hr. destruct (decision self d R).2; [done|].
  by apply eligible_in_available in Hr.
Qed.

Lemma available_member self d n :
  n ∈ get_available_staff self d ↔
  ∃ s, s ∈ staff_list self ∧ name s = n ∧ d ∉ holiday_dates s.
Proof.
  unfold get_available_staff. rewrite list_elem_of_fmap. split.
  - intros (s & -> & Hs). apply list_elem_of_filter in Hs as [Hav Hs].
    exists s. split_and!; [done..|].
    unfold is_available in Hav. by apply bool_decide_eq_true in Hav.
  - intros (s & Hs & <- & Hd). exists s. split; [done|].
    apply list_elem_of_filter. split; [|done].
    unfold is_available. by apply bool_decide_eq_true.
Qed.

(** X1.  Nobody on holiday is ever assigned: whatever the headcount and
    the branch, every selected name is the name of a roster member for
    whom the date is not a holiday. *)
Theorem assigned_are_not_on_holiday self d R label :
  consistent self →
  ∃ a self',
    assign_staff_for_day self d R label = Ok (a, self') ∧
    ∀ n, n ∈ assigned_staff a →
      n ∈ get_available_staff self d ∧
      ∃ s, s ∈ staff_list self ∧ name s = n ∧ d ∉ holiday_dates s.
Proof.
  intros Hc. eexists _, _. split; [by apply assign_staff_for_day_Ok|].
  intros n Hn%decision_available. split; [done|].
  by apply available_member.
Qed.

Lemma decision_rested self d R n :
  (decision self d R).2 = false →
  n ∈ (decision self d R).1 → rested self n.
Proof.
  intros Hot Hn.
  pose proof (elem_of_sublist _ _ _ Hn (decision_in_pool self d R)) as Hr.
  rewrite Hot in Hr. apply elem_of_ranked, list_elem_of_filter in Hr.
  tauto.
Qed.

(** X2.  The rest rule holds on every day without overtime: a selected
    name then has its worked-yesterday flag false, so of two days
    processed one after the other, the second, when it is not an overtime
    day, selects nobody who was selected on the first. *)
Theorem rest_rule_without_overtime self d1 R1 label1 d2 R2 label2 :
  consistent self →
  ∃ a1 s1 a2 s2,
    assign_staff_for_day self d1 R1 label1 = Ok (a1, s1) ∧
    assign_staff_for_day s1 d2 R2 label2 = Ok (a2, s2) ∧
    (overtime a1 = false →
     ∀ n, n ∈ assigned_staff a1 →
       staff_worked_yesterday self !! n = Some false) ∧
    (overtime a2 = false →
     ∀ n, n ∈ assigned_staff a1 → n ∉ assigned_staff a2).
Proof.
  intros Hc.
  pose proof (after_day_consistent self d1 R1 label1 Hc) as Hc1.
  eexists _, _, _, _.
  split; [by apply assign_staff_for_day_Ok|].
  split; [by apply assign_staff_for_day_Ok|].
  cbn [assignment_of overtime assigned_staff]. split.
  - intros Hot n Hn. by apply (decision_rested self d1 R1).
  - intros Hot n Hn1 Hn2.
    apply (decision_rested _ d2 R2 n Hot) in Hn2. unfold rested in Hn2.
    rewrite after_day_flag in Hn2 by by apply (decision_sublist self d1 R1).
    cbn in Hn2. by rewrite bool_decide_eq_true_2 in Hn2.
Qed.
End selection_facts.

(** ** How many are selected, and which *)

Section selection_size.
Implicit Types (self : StaffAssignmentManager) (d : datetime) (R : Z).
Implicit Types (label : option string) (n : string).

Lemma decision_NoDup self d R :
  consistent self → NoDup (staff_names self) → NoDup (decision self d R).1.
Proof.
  intros Hc Hnd.
  eapply sublist_NoDup; [|apply decision_in_pool].
  rewrite ranked_perm.
  assert (NoDup (get_available_staff self d)) as Hav.
  { eapply sublist_NoDup; [exact Hnd|by apply available_sublist]. }
  destruct (decision self d R).2; [done|]. by apply NoDup_filter.
Qed.

Lemma len_eligible_le self d :
  len (filter (rested self) (get_available_staff self d))
  ≤ len (get_available_staff self d).
Proof.
  unfold len. apply inj_le, sublist_length, sublist_filter.
Qed.

Lemma len_decision self d R :
  0 ≤ R →
  len (decision self d R).1
  = if R <=? len (filter (rested self) (get_available_staff self d))
    then R else Z.min R (len (get_available_staff self d)).
Proof.
  intros HR. unfold decision.
  destruct (Z.leb_spec R
              (len (filter (rested self) (get_available_staff self d))));
    cbn [fst]; rewrite len_slice_to, len_ranked by done; lia.
Qed.

(** X3.  The size of a selection: [assigned_count] is the length of the
    selected list, it never exceeds the number of available staff nor,
    for a non-negative headcount, the headcount; and on a roster without
    repeated names nobody is selected twice on one day. *)
Theorem selection_size_bounds self d R label :
  consistent self →
  ∃ a self',
    assign_staff_for_day self d R label = Ok (a, self') ∧
    assigned_count a = len (assigned_staff a) ∧
    0 ≤ assigned_count a ≤ len (get_available_staff self d) ∧
    (0 ≤ R → assigned_count a ≤ R) ∧
    (NoDup (staff_names self) → NoDup (assigned_staff a)).
Proof.
  intros Hc. eexists _, _. split; [by apply assign_staff_for_day_Ok|].
  cbn [assignment_of assigned_count assigned_staff]. split_and!.
  - done.
  - apply len_nonneg.
  - unfold len. apply inj_le.
    etrans; [apply sublist_length, decision_in_pool|].
    rewrite ranked_length.
    destruct (decision self d R).2; [done|].
    apply sublist_length, sublist_filter.
  - intros HR. rewrite len_decision by done.
    destruct (R <=? _); lia.
  - by apply decision_NoDup.
Qed.

(** X4.  For a non-negative headcount the shortage computed from the
    available staff is the unmet demand: [shortage = people_required -
    assigned_count].  So a day is fully staffed exactly when
    [assigned_count = people_required], and a positive shortage occurs
    only on an overtime day on which every available member is
    assigned. *)
Theorem shortage_is_unmet_demand self d R label :
  consistent self →
  0 ≤ R →
  ∃ a self',
    assign_staff_for_day self d R label = Ok (a, self') ∧
    shortage a = people_required a - assigned_count a ∧
    (is_fully_staffed a = true ↔ assigned_count a = people_required a) ∧
    (0 < shortage a →
     overtime a = true ∧ assigned_staff a ≡ₚ get_available_staff self d).
Proof.
  intros Hc HR. eexists _, _. split; [by apply assign_staff_for_day_Ok|].
  pose proof (len_eligible_le self d) as Hle.
  pose proof (len_decision self d R HR) as Hlen.
  assert (Z.max 0 (R - len (get_available_staff self d))
          = R - len (decision self d R).1) as Hsh.
  { rewrite Hlen. destruct (Z.leb_spec R
      (len (filter (rested self) (get_available_staff self d)))); lia. }
  cbn [assignment_of shortage people_required assigned_count overtime
       assigned_staff is_fully_staffed].
  split_and!.
  - done.
  - unfold is_fully_staffed. cbn [assignment_of shortage].
    rewrite bool_decide_eq_true. lia.
  - intros Hpos. unfold decision.
    destruct (Z.leb_spec R
      (len (filter (rested self) (get_available_staff self d)))); [lia|].
    cbn [fst snd]. split; [done|].
    rewrite slice_to_take by done.
    rewrite take_ge; [apply ranked_perm|].
    rewrite ranked_length. unfold len in Hpos. lia.
Qed.

(** X5.  Least worked first: in the pool of the branch taken (the
    eligible staff on a normal day, all available staff on an overtime
    day) no candidate left out has fewer workdays than a selected one. *)
Theorem selected_have_fewest_workdays self d R label :
  consistent self →
  ∃ a self',
    assign_staff_for_day self d R label = Ok (a, self') ∧
    ∀ x y,
      x ∈ assigned_staff a →
      y ∈ (if overtime a then get_available_staff self d
           else filter (rested self) (get_available_staff self d)) →
      y ∉ assigned_staff a →
      workdays_of self x ≤ workdays_of self y.
Proof.
  intros Hc. eexists _, _. split; [by apply assign_staff_for_day_Ok|].
  cbn [assignment_of assigned_staff overtime]. intros x y Hx Hy Hny.
  destruct (decision_prefix self d R) as [k Hk].
  set (pool := if (decision self d R).2 then _ else _) in *.
  pose proof (ranked_sorted (workdays_of self) pool) as Hs.
  apply Sorted_StronglySorted in Hs; [|intros u v w; lia].
  rewrite <-(take_drop k (ranked (workdays_of self) pool)) in Hs.
  rewrite Hk in Hx, Hny.
  apply (StronglySorted_app_1_elem_of _ _ _ x y Hs Hx).
  apply (elem_of_ranked (workdays_of self)) in Hy.
  rewrite <-(take_drop k (ranked (workdays_of self) pool)) in Hy.
  apply elem_of_app in Hy as [Hy|Hy]; [done|exact Hy].
Qed.
End selection_size.

(** ** Counters and days *)

Section counters_and_days.
Implicit Types (self : StaffAssignmentManager) (days : list DayForecast).
Implicit Types (n : string).

(** X6.  On a roster without repeated names one processed day adds
    exactly one workday to each selected member and leaves every other
    counter as it was. *)
Theorem counters_step_by_one self d R label :
  consistent self →
  NoDup (staff_names self) →
  ∃ a self',
    assign_staff_for_day self d R label = Ok (a, self') ∧
    ∀ n c, staff_workdays self !! n = Some c →
      staff_workdays self' !! n
      = Some (if decide (n ∈ assigned_staff a) then c + 1 else c).
Proof.
  intros Hc Hnd. eexists _, _. split; [by apply assign_staff_for_day_Ok|].
  intros n c Hn. by apply after_day_increment.
Qed.

Lemma assign_days_tally self days l self' n c :
  consistent self → NoDup (staff_names self) →
  assign_days self days = Ok (l, self') →
  staff_workdays self !! n = Some c →
  staff_workdays self' !! n
  = Some (c + sum_Z (λ a, if decide (n ∈ assigned_staff a) then 1 else 0) l).
Proof.
  revert self l c. induction days as [|r days IH]; intros self l c Hc Hnd.
  - cbn. intros [= <- <-] Hn. cbn. rewrite Hn. f_equal. lia.
  - rewrite assign_days_cons by done. intros Hrun Hn.
    apply bind_Ok in Hrun as ([l1 s1] & Hrun & [= <- <-]).
    pose proof (after_day_consistent self (row_date r)
                  (row_people_required r) (row_label r) Hc) as Hc1.
    rewrite (IH _ _ _ Hc1 Hnd Hrun
               (after_day_increment self _ _ _ n c Hc Hnd Hn)).
    f_equal. unfold sum_Z. cbn [foldr assignment_of assigned_staff].
    case_decide; lia.
Qed.

(** X7.  Over a horizon started from the reset state, on a roster
    without repeated names, the workday counter of a member is the number
    of days on which the member was selected, hence at most the number of
    days processed. *)
Theorem counter_counts_selected_days self days :
  staff_names self = name <$> staff_list self →
  NoDup (staff_names self) →
  ∃ l self',
    assign_days (reset_state self) days = Ok (l, self') ∧
    ∀ n c, staff_workdays self' !! n = Some c →
      c = sum_Z (λ a, if decide (n ∈ assigned_staff a) then 1 else 0) l ∧
      0 ≤ c ≤ len days.
Proof.
  intros Hreg Hnd. pose proof (reset_state_consistent self Hreg) as Hc.
  destruct (assign_days_Ok _ days Hc) as (l & s & Hrun & _ & _ & Hlen).
  exists l, s. split; [done|]. intros n c Hn.
  destruct (assign_days_counters _ _ _ _ Hc Hrun) as (_ & _ & Hdom).
  destruct (Hdom n) as [c0 Hc0]; [by eexists|].
  assert (c0 = 0) as ->.
  { cbn in Hc0. rewrite lookup_dict_from_keys in Hc0.
    case_decide; by simplify_eq. }
  rewrite (assign_days_tally _ _ _ _ n 0 Hc Hnd Hrun Hc0) in Hn.
  injection Hn as <-. split; [lia|].
  unfold len. rewrite <-Hlen. clear.
  induction l as [|a l IH]; unfold sum_Z in *; cbn [foldr length].
  - lia.
  - case_decide; lia.
Qed.

Lemma assign_days_rows self days :
  consistent self →
  ∃ l self',
    assign_days self days = Ok (l, self') ∧
    date <$> l = row_date <$> days ∧
    people_required <$> l = row_people_required <$> days ∧
    day_name <$> l
      = (λ r, default (strftime_A (row_date r)) (row_day_name r)) <$> days ∧
    assignment_history self' = assignment_history self ++ l.
Proof.
  revert self. induction days as [|r days IH]; intros self Hc.
  - exists [], self. split_and!; try done. by rewrite app_nil_r.
  - rewrite assign_days_cons by done.
    destruct (IH _ (after_day_consistent self (row_date r)
                      (row_people_required r) (row_label r) Hc))
      as (l & s & -> & Hd & Hr & Hn & Hh).
    eexists _, _. split; [done|]. rewrite !fmap_cons.
    split_and!; [by f_equal..|].
    rewrite Hh, after_day_history. by rewrite <-app_assoc.
Qed.

(** X8.  The Assignments the loop returns follow the rows it was given,
    one per row and in order, with the row's date and headcount and with
    the row's label or else the weekday of the date; the same Assignments
    are appended, in this order, to the history. *)
Theorem assignments_follow_rows self days :
  consistent self →
  ∃ l self',
    assign_days self days = Ok (l, self') ∧
    date <$> l = row_date <$> days ∧
    people_required <$> l = row_people_required <$> days ∧
    day_name <$> l
      = (λ r, default (strftime_A (row_date r)) (row_day_name r)) <$> days ∧
    assignment_history self' = assignment_history self ++ l.
Proof. apply assign_days_rows. Qed.
End counters_and_days.

(** ** The week *)

Section week_facts.
Implicit Types (self : StaffAssignmentManager) (days : list DayForecast).
Implicit Types (df : DataFrame).

Lemma missing_cols_nil (cols : list string) :
  filter (λ col, col ∉ cols) required_cols = [] ↔
  "date"%string ∈ cols ∧ "people_required"%string ∈ cols.
Proof.
  unfold required_cols. rewrite !filter_cons, filter_nil.
  destruct (decide ("date"%string ∉ cols)) as [Hd|Hd],
           (decide ("people_required"%string ∉ cols)) as [Hp|Hp];
    split; try done; try tauto.
  intros _. split; by apply dec_stable.
Qed.

Lemma assign_week_Ok self df :
  consistent self →
  "date"%string ∈ columns df → "people_required"%string ∈ columns df →
  ∃ res self',
    assign_week self df = Ok (res, self') ∧
    assign_days self (rows df) = Ok (assignments res, self') ∧
    length (assignments res) = length (rows df) ∧
    workload_balance res = staff_workdays self' ∧
    summary_stats res = _generate_summary_stats (assignments res).
Proof.
  intros Hc Hd Hp. unfold assign_week.
  rewrite (proj2 (missing_cols_nil (columns df)) (conj Hd Hp)).
  rewrite bool_decide_eq_false_2 by (intros H; by apply H).
  destruct (assign_days_Ok self (rows df) Hc)
    as (l & s & Hrun & _ & _ & Hlen).
  rewrite Hrun. by eexists _, _.
Qed.

(** X9.  [assign_week] fails exactly when the forecast table lacks one
    of the columns [date] and [people_required]: it then raises a
    [ValueError] naming the missing ones, in that order.  Otherwise, on a
    consistent manager, it returns the Assignments of the day loop, the
    workday counters as they stand after the loop, and the statistics of
    those Assignments; a table without rows gives no Assignment and
    leaves the manager as it was. *)
Theorem assign_week_outcome self df :
  consistent self →
  ("date"%string ∈ columns df ∧ "people_required"%string ∈ columns df →
   ∃ res self',
     assign_week self df = Ok (res, self') ∧
     assign_days self (rows df) = Ok (assignments res, self') ∧
     length (assignments res) = length (rows df) ∧
     workload_balance res = staff_workdays self' ∧
     summary_stats res = _generate_summary_stats (assignments res) ∧
     (rows df = [] → assignments res = [] ∧ self' = self)) ∧
  (¬ ("date"%string ∈ columns df ∧ "people_required"%string ∈ columns df) →
   ∃ missing,
     assign_week self df
     = Raise (ValueError "Missing required columns in forecast: " missing) ∧
     missing ≠ [] ∧
     missing = filter (λ col, col ∉ columns df) ["date"; "people_required"]
                      %string).
Proof.
  intros Hc. unfold assign_week. split.
  - intros Hcols%missing_cols_nil. rewrite Hcols.
    rewrite bool_decide_eq_false_2 by (intros H; by apply H).
    destruct (assign_days_Ok self (rows df) Hc)
      as (l & s & Hrun & _ & _ & Hlen).
    rewrite Hrun. eexists _, _. split; [done|]. cbn.
    split_and!; try done.
    intros Hrows. rewrite Hrows in Hrun. cbn in Hrun.
    by injection Hrun as <- <-.
  - intros Hcols. eexists. rewrite bool_decide_eq_true_2.
    + split; [done|]. split; [|done].
      intros Hnil. by apply Hcols, missing_cols_nil.
    + intros Hnil. by apply Hcols, missing_cols_nil.
Qed.

Lemma assignment_of_unmet self d R label :
  0 ≤ R →
  shortage (assignment_of self d R label)
  = R - assigned_count (assignment_of self d R label).
Proof.
  intros HR. cbn. rewrite len_decision by done.
  pose proof (len_eligible_le self d).
  destruct (Z.leb_spec R
    (len (filter (rested self) (get_available_staff self d)))); lia.
Qed.

Lemma assign_days_sums self days l self' :
  consistent self →
  Forall (λ r, 0 ≤ row_people_required r) days →
  assign_days self days = Ok (l, self') →
  sum_Z people_required l = sum_Z row_people_required days ∧
  0 ≤ sum_Z assigned_count l ≤ sum_Z people_required l ∧
  sum_Z shortage l = sum_Z people_required l - sum_Z assigned_count l.
Proof.
  revert self l. induction days as [|r days IH]; intros self l Hc Hpos.
  - cbn. intros [= <- <-]. cbn. lia.
  - rewrite assign_days_cons by done. intros Hrun.
    apply bind_Ok in Hrun as ([l1 s1] & Hrun & [= <- <-]).
    apply Forall_cons in Hpos as [HR Hpos].
    destruct (IH _ _ (after_day_consistent self (row_date r)
                        (row_people_required r) (row_label r) Hc)
                Hpos Hrun) as (Hd & Ha & Hs).
    pose proof (assignment_of_unmet self (row_date r)
                  (row_people_required r) (row_label r) HR) as Hun.
    pose proof (len_decision self (row_date r) (row_people_required r) HR)
      as Hlen.
    pose proof (len_nonneg
                  (decision self (row_date r) (row_people_required r)).1)
      as Hnn.
    pose proof (len_nonneg (get_available_staff self (row_date r))) as Hav.
    unfold sum_Z in *. cbn [foldr]. rewrite Hun.
    cbn [assignment_of people_required assigned_count].
    destruct (row_people_required r <=? _); lia.
Qed.

(** X10.  The statistics of a week agree with one another and with the
    counters: the number of Assignments is the number of rows, the
    overtime days are at most that many, the workload balance adds up to
    the previous total plus [total_assigned], and, when no required
    headcount is negative, [total_assigned] is at most [total_demand] and
    [total_shortage] is exactly their difference. *)
Theorem week_statistics_agree self df :
  consistent self →
  "date"%string ∈ columns df →
  "people_required"%string ∈ columns df →
  ∃ res self',
    assign_week self df = Ok (res, self') ∧
    total_assignments (summary_stats res) = len (rows df) ∧
    0 ≤ overtime_days (summary_stats res)
      ≤ total_assignments (summary_stats res) ∧
    sum_values (workload_balance res)
    = total_workdays self + total_assigned (summary_stats res) ∧
    (Forall (λ r, 0 ≤ row_people_required r) (rows df) →
     total_demand (summary_stats res)
     = sum_Z row_people_required (rows df) ∧
     0 ≤ total_assigned (summary_stats res)
       ≤ total_demand (summary_stats res) ∧
     total_shortage (summary_stats res)
     = total_demand (summary_stats res)
       - total_assigned (summary_stats res)).
Proof.
  intros Hc Hdate Hppl.
  destruct (assign_week_Ok self df Hc Hdate Hppl)
    as (res & s & Hweek & Hrun & Hlen & Hwb & Hstats).
  exists res, s. split; [done|]. rewrite Hwb, Hstats.
  cbn [_generate_summary_stats total_assignments overtime_days
       total_assigned total_demand total_shortage].
  destruct (assign_days_counters _ _ _ _ Hc Hrun) as (Hsum & _ & _).
  split_and!.
  - unfold len. by rewrite Hlen.
  - clear. induction (assignments res) as [|a l IH];
      unfold sum_Z in *; cbn [foldr].
    + lia.
    + destruct (overtime a); lia.
  - clear. unfold len, sum_Z.
    induction (assignments res) as [|a l IH]; cbn [foldr length].
    + lia.
    + destruct (overtime a); lia.
  - exact Hsum.
  - intros Hpos.
    destruct (assign_days_sums _ _ _ _ Hc Hpos Hrun) as (Hd & Ha & Hs).
    split_and!; [done|lia..|done].
Qed.
End week_facts.

(** ** Missing keys *)

Section missing_keys.
Implicit Types (self : StaffAssignmentManager) (l : list string).
Implicit Types (n : string).

Lemma get_eligible_staff_missing self l1 n l2 :
  Forall (λ m, is_Some (staff_worked_yesterday self !! m)) l1 →
  staff_worked_yesterday self !! n = None →
  get_eligible_staff self (l1 ++ n :: l2) = Raise (KeyError n).
Proof.
  intros Hl1 Hn. induction Hl1 as [|m l1 [b Hb] _ IH]; cbn.
  - unfold dict_get. by rewrite Hn.
  - rewrite (bind_of_Ok _ _ b) by by apply dict_get_Ok. by rewrite IH.
Qed.

(** X11.  [get_eligible_staff] accepts any list of names.  When every
    name has a worked-yesterday entry it returns, in the order given, the
    names whose flag is false; otherwise it raises [KeyError] for the
    first name without an entry.  [assign_staff_for_day] passes that
    error on when the first such name is among the available staff. *)
Theorem get_eligible_staff_outcome self l :
  (Forall (λ m, is_Some (staff_worked_yesterday self !! m)) l →
   get_eligible_staff self l = Ok (filter (rested self) l)) ∧
  (∀ l1 n l2,
     l = l1 ++ n :: l2 →
     Forall (λ m, is_Some (staff_worked_yesterday self !! m)) l1 →
     staff_worked_yesterday self !! n = None →
     get_eligible_staff self l = Raise (KeyError n) ∧
     ∀ d R label,
       get_available_staff self d = l →
       assign_staff_for_day self d R label = Raise (KeyError n)).
Proof.
  split.
  - intros Hl. apply get_eligible_staff_Ok. intros n Hn.
    by apply (proj1 (Forall_forall _ _) Hl).
  - intros l1 n l2 -> Hl1 Hn.
    pose proof (get_eligible_staff_missing self l1 n l2 Hl1 Hn) as Hraise.
    split; [done|]. intros d R label Hav.
    unfold assign_staff_for_day. by rewrite Hav, Hraise.
Qed.

Lemma decorate_missing {A : Type} (key : A → result Z) (l1 : list A)
    (x : A) (l2 : list A) (e : exn) :
  Forall (λ y, ∃ k, key y = Ok k) l1 →
  key x = Raise e →
  decorate key (l1 ++ x :: l2) = Raise e.
Proof.
  intros Hl1 Hx. induction Hl1 as [|y l1 [k Hk] _ IH]; cbn.
  - by rewrite Hx.
  - by rewrite Hk, IH.
Qed.

(** X12.  The ranking [sort_by_workdays] accepts any list of names.  When
    every name has a workday counter, it returns the names rearranged by
    ascending counter, names of equal counter keeping their order; this
    determines the result, whatever stable sorting method is used.  When
    a name has no counter it raises [KeyError] for the first such
    name. *)
Theorem sort_by_workdays_outcome self l :
  (Forall (λ m, is_Some (staff_workdays self !! m)) l →
   ∃ r,
     sort_by_workdays self l = Ok r ∧
     r ≡ₚ l ∧
     Sorted (λ x y, workdays_of self x ≤ workdays_of self y) r ∧
     (∀ k, filter (λ x, workdays_of self x = k) r
           = filter (λ x, workdays_of self x = k) l) ∧
     ∀ r',
       Sorted (λ x y, workdays_of self x ≤ workdays_of self y) r' →
       (∀ k, filter (λ x, workdays_of self x = k) r'
             = filter (λ x, workdays_of self x = k) l) →
       r' = r) ∧
  (∀ l1 n l2,
     l = l1 ++ n :: l2 →
     Forall (λ m, is_Some (staff_workdays self !! m)) l1 →
     staff_workdays self !! n = None →
     sort_by_workdays self l = Raise (KeyError n)).
Proof.
  split.
  - intros Hl. exists (ranked (workdays_of self) l). split_and!.
    + apply sort_by_workdays_Ok. intros n Hn.
      by apply (proj1 (Forall_forall _ _) Hl).
    + apply ranked_perm.
    + apply ranked_sorted.
    + intros k. apply ranked_filter.
    + intros r' Hs Hf. by apply ranked_unique.
  - intros l1 n l2 -> Hl1 Hn. unfold sort_by_workdays, list_sort.
    rewrite (decorate_missing _ l1 n l2 (KeyError n)); [done| |].
    + eapply Forall_impl; [exact Hl1|]. intros m [c Hc]. exists c.
      by apply dict_get_Ok.
    + unfold dict_get. by rewrite Hn.
Qed.
End missing_keys.

(** ** Snapshots *)

Section snapshot_facts.
Implicit Types (self : StaffAssignmentManager) (days : list DayForecast).
Implicit Types (n : string).

Lemma same_state_after_day s1 s2 d R label :
  same_state s1 s2 →
  assignment_of s1 d R label = assignment_of s2 d R label ∧
  same_state (after_day s1 d R label) (after_day s2 d R label).
Proof.
  destruct s1, s2. intros (Hl & Hn & Hwd & Hwy). cbn in *. by subst.
Qed.

Lemma same_state_consistent s1 s2 :
  same_state s1 s2 → consistent s1 → consistent s2.
Proof.
  intros (Hl & Hn & Hwd & Hwy) [Hreg Hall]. unfold consistent.
  by rewrite <-Hl, <-Hn, <-Hwd, <-Hwy.
Qed.

Lemma same_state_assign_days s1 s2 days l1 s1' :
  same_state s1 s2 → consistent s1 →
  assign_days s1 days = Ok (l1, s1') →
  ∃ s2', assign_days s2 days = Ok (l1, s2') ∧ same_state s1' s2'.
Proof.
  revert s1 s2 l1. induction days as [|r days IH]; intros s1 s2 l1 Hss Hc.
  - cbn. intros [= <- <-]. by exists s2.
  - pose proof (same_state_consistent _ _ Hss Hc) as Hc2.
    rewrite !assign_days_cons by done. intros Hrun.
    apply bind_Ok in Hrun as ([l s] & Hrun & [= <- <-]).
    destruct (same_state_after_day s1 s2 (row_date r)
                (row_people_required r) (row_label r) Hss) as [Ha Hss1].
    destruct (IH _ _ _ Hss1
                (after_day_consistent s1 (row_date r)
                   (row_people_required r) (row_label r) Hc) Hrun)
      as (s2' & Hrun2 & Hss').
    exists s2'. rewrite Hrun2. cbn. by rewrite Ha.
Qed.

Lemma union_absorb {V : Type} (m1 m2 : gmap string V) :
  (∀ k, is_Some (m2 !! k) → is_Some (m1 !! k)) → m1 ∪ m2 = m1.
Proof.
  intros Hsub. apply map_eq. intros k. rewrite lookup_union.
  destruct (m1 !! k) as [v|] eqn:H1; [by destruct (m2 !! k)|].
  destruct (m2 !! k) as [w|] eqn:H2; [|done].
  destruct (Hsub k) as [v Hv]; [by eexists|]. congruence.
Qed.

(** X13.  A snapshot taken with [get_state] and loaded into the reset
    manager restores both dictionaries exactly; only the history is lost.
    The restored manager then continues as the original would: the same
    rows give the same Assignments and the same dictionaries. *)
Theorem snapshot_restores_state self days :
  consistent self →
  staff_workdays (load_state (reset_state self) (get_state self))
  = staff_workdays self ∧
  staff_worked_yesterday (load_state (reset_state self) (get_state self))
  = staff_worked_yesterday self ∧
  assignment_history (load_state (reset_state self) (get_state self)) = [] ∧
  ∃ l s1 s2,
    assign_days self days = Ok (l, s1) ∧
    assign_days (load_state (reset_state self) (get_state self)) days
    = Ok (l, s2) ∧
    staff_workdays s2 = staff_workdays s1 ∧
    staff_worked_yesterday s2 = staff_worked_yesterday s1.
Proof.
  intros Hc.
  assert (staff_workdays (load_state (reset_state self) (get_state self))
          = staff_workdays self) as Hwd.
  { cbn. apply union_absorb. intros k.
    rewrite lookup_dict_from_keys. case_decide; [|by intros [? ?]].
    intros _. by apply consistent_names. }
  assert (staff_worked_yesterday
            (load_state (reset_state self) (get_state self))
          = staff_worked_yesterday self) as Hwy.
  { cbn. apply union_absorb. intros k.
    rewrite lookup_dict_from_keys. case_decide; [|by intros [? ?]].
    intros _. by apply consistent_names. }
  split_and!; [done..|].
  destruct (assign_days_Ok self days Hc) as (l & s1 & Hrun & _).
  destruct (same_state_assign_days self
              (load_state (reset_state self) (get_state self)) days l s1)
    as (s2 & Hrun2 & (_ & _ & Hwd2 & Hwy2)); [by split_and!|done..|].
  by exists l, s1, s2.
Qed.

(** X14.  [load_state] with any snapshot, partial or naming people who
    are not on the roster, keeps the manager usable: the entries of the
    snapshot replace or extend those of the dictionaries, no entry is
    removed, roster and history are untouched, and the day loop still
    returns without raising. *)
Theorem load_state_keeps_manager_usable self state :
  consistent self →
  consistent (load_state self state) ∧
  same_registry (load_state self state) self ∧
  assignment_history (load_state self state) = assignment_history self ∧
  (∀ n, staff_workdays (load_state self state) !! n
        = match sd_staff_workdays state ≫= (.!! n) with
          | Some c => Some c
          | None => staff_workdays self !! n
          end) ∧
  (∀ n, staff_worked_yesterday (load_state self state) !! n
        = match sd_staff_worked_yesterday state ≫= (.!! n) with
          | Some b => Some b
          | None => staff_worked_yesterday self !! n
          end) ∧
  ∀ days, ∃ l self',
    assign_days (load_state self state) days = Ok (l, self') ∧
    length l = length days.
Proof.
  intros Hc. pose proof (load_state_consistent self state Hc) as Hc'.
  split_and!; [done..| | |].
  - intros n. cbn. destruct (sd_staff_workdays state) as [snap|]; cbn.
    + rewrite lookup_union. by destruct (snap !! n), (staff_workdays self !! n).
    + done.
  - intros n. cbn. destruct (sd_staff_worked_yesterday state) as [snap|]; cbn.
    + rewrite lookup_union.
      by destruct (snap !! n), (staff_worked_yesterday self !! n).
    + done.
  - intros days.
    destruct (assign_days_Ok _ days Hc') as (l & s & ? & _ & _ & ?).
    by exists l, s.
Qed.
End snapshot_facts.

(** ** Holiday conflicts *)

Section holiday_facts.
Implicit Types (self : StaffAssignmentManager) (d : datetime).
Implicit Types (dates : list datetime) (n : string).

Lemma lookup_foldl_conflicts self dates (acc : gmap Z (list string)) d :
  foldl (λ conflicts date,
           if bool_decide (on_holiday self date ≠ [])
           then <[date := on_holiday self date]> conflicts
           else conflicts) acc dates !! d
  = if decide (d ∈ dates ∧ on_holiday self d ≠ [])
    then Some (on_holiday self d) else acc !! d.
Proof.
  revert acc. induction dates as [|x dates IH]; intros acc; cbn [foldl].
  - case_decide as H; [|done]. destruct H as [H _].
    by apply elem_of_nil in H.
  - rewrite IH. destruct (decide (d ∈ dates ∧ on_holiday self d ≠ []))
      as [[Hin Hne]|Hno].
    + rewrite decide_True; [done|]. split; [by right|done].
    + case_bool_decide as Hx.
      * destruct (decide (x = d)) as [->|Hxd].
        -- rewrite lookup_insert_eq, decide_True; [done|].
           split; [by left|done].
        -- rewrite lookup_insert_ne by done. rewrite decide_False; [done|].
           intros [Hin Hne]. apply Hno. split; [|done].
           apply elem_of_cons in Hin as [->|Hin]; done.
      * rewrite decide_False; [done|]. intros [Hin Hne]. apply Hno.
        split; [|done]. apply elem_of_cons in Hin as [->|Hin]; done.
Qed.

Lemma on_holiday_member self d n :
  n ∈ on_holiday self d ↔
  ∃ s, s ∈ staff_list self ∧ name s = n ∧ d ∈ holiday_dates s.
Proof.
  unfold on_holiday. rewrite list_elem_of_fmap. split.
  - intros (s & -> & Hs). apply list_elem_of_filter in Hs as [Hav Hs].
    exists s. split_and!; [done..|].
    unfold is_available in Hav. apply bool_decide_eq_false in Hav.
    by apply dec_stable.
  - intros (s & Hs & <- & Hd). exists s. split; [done|].
    apply list_elem_of_filter. split; [|done].
    unfold is_available. apply bool_decide_eq_false. by intros H.
Qed.

Lemma on_holiday_available_split self d :
  on_holiday self d ++ get_available_staff self d ≡ₚ name <$> staff_list self.
Proof.
  unfold on_holiday, get_available_staff.
  induction (staff_list self) as [|s l IH]; [done|].
  rewrite !filter_cons, fmap_cons.
  destruct (is_available s d) eqn:Hav.
  - rewrite decide_False, decide_True by done.
    rewrite fmap_cons, <-Permutation_middle. by f_equiv.
  - rewrite decide_True, decide_False by done.
    rewrite fmap_cons. cbn. by f_equiv.
Qed.

(** X15.  [get_holiday_conflicts] has a key for a date exactly when the
    date is in the range asked for and somebody is on holiday then; the
    value lists, in roster order, the names of the members whose holidays
    contain the date, and is never an empty list.  Together with the
    available staff of that date these names make up the whole roster. *)
Theorem holiday_conflicts_outcome self dates d :
  (is_Some (get_holiday_conflicts self dates !! d) ↔
   d ∈ dates ∧ ∃ s, s ∈ staff_list self ∧ d ∈ holiday_dates s) ∧
  (∀ names, get_holiday_conflicts self dates !! d = Some names →
     names ≠ [] ∧
     names
     = name <$> filter (λ s, is_available s d = false) (staff_list self) ∧
     (∀ n, n ∈ names ↔
           ∃ s, s ∈ staff_list self ∧ name s = n ∧ d ∈ holiday_dates s) ∧
     names ++ get_available_staff self d ≡ₚ name <$> staff_list self) ∧
  (d ∈ dates →
   get_holiday_conflicts self dates !! d = None →
   get_available_staff self d = name <$> staff_list self).
Proof.
  unfold get_holiday_conflicts. rewrite lookup_foldl_conflicts.
  rewrite lookup_empty. split_and!.
  - case_decide as H; split.
    + intros _. destruct H as [Hin Hne]. split; [done|].
      destruct (on_holiday self d) as [|n l] eqn:Hoh; [done|].
      assert (n ∈ on_holiday self d) as Hn by (rewrite Hoh; left).
      apply on_holiday_member in Hn as (s & ? & ? & ?). by exists s.
    + by eexists.
    + by intros [? ?].
    + intros (Hin & s & Hs & Hd). exfalso. apply H. split; [done|].
      intros Hnil.
      assert (name s ∈ on_holiday self d) as Hn
        by (apply on_holiday_member; by exists s).
      rewrite Hnil in Hn. by apply elem_of_nil in Hn.
  - intros names. case_decide as H; [|done]. intros [= <-].
    destruct H as [_ Hne]. split_and!; [done..| |].
    + apply on_holiday_member.
    + apply on_holiday_available_split.
  - intros Hin. case_decide as H; [done|]. intros _.
    assert (on_holiday self d = []) as Hnil.
    { destruct (on_holiday self d) eqn:?; [done|].
      exfalso. apply H. by split. }
    pose proof (on_holiday_available_split self d) as Hsplit.
    rewrite Hnil in Hsplit. cbn in Hsplit.
    unfold get_available_staff in *. f_equal.
    apply filter_all, Forall_forall. intros s Hs.
    destruct (is_available s d) eqn:Hav; [done|].
    assert (name s ∈ on_holiday self d) as Hn.
    { unfold on_holiday. apply list_elem_of_fmap. exists s. split; [done|].
      by apply list_elem_of_filter. }
    rewrite Hnil in Hn. by apply elem_of_nil in Hn.
Qed.
End holiday_facts.

(** ** What [_update_state] touches *)

Section update_facts.
Implicit Types (self : StaffAssignmentManager) (assigned : list string).
Implicit Types (n : string).

(** X16.  [_update_state] takes any list of names.  It creates no
    workday counter (a name without a counter is skipped) and removes
    none; a name that is not in the list keeps its count.  It rewrites
    the flag of every roster name, true exactly for the names in the
    list, and leaves the flag of any other key as it was.  Roster and
    history do not change. *)
Theorem update_state_touches self assigned :
  (∀ n, is_Some (staff_workdays (_update_state self assigned) !! n) ↔
        is_Some (staff_workdays self !! n)) ∧
  (∀ n, n ∉ assigned →
        staff_workdays (_update_state self assigned) !! n
        = staff_workdays self !! n) ∧
  (∀ n c, staff_workdays self !! n = Some c →
     ∃ c', staff_workdays (_update_state self assigned) !! n = Some c' ∧
           c ≤ c') ∧
  (∀ n, n ∈ staff_names self →
        staff_worked_yesterday (_update_state self assigned) !! n
        = Some (bool_decide (n ∈ assigned))) ∧
  (∀ n, n ∉ staff_names self →
        staff_worked_yesterday (_update_state self assigned) !! n
        = staff_worked_yesterday self !! n) ∧
  same_registry (_update_state self assigned) self ∧
  assignment_history (_update_state self assigned)
  = assignment_history self.
Proof.
  split_and!; try done.
  - intros n. apply foldl_incr_dom.
  - intros n Hn. by apply foldl_incr_not_in.
  - intros n c Hn. by apply foldl_incr_mono.
  - intros n Hn. cbn. rewrite lookup_foldl_insert. by rewrite decide_True.
  - intros n Hn. cbn. rewrite lookup_foldl_insert. by rewrite decide_False.
Qed.

(** X17.  Construct, run, reset: the day loop never raises on a manager
    made by the constructor, and after any run of it [reset_state] gives
    back exactly the manager the constructor made. *)
Theorem reset_returns_to_constructed (staff : list Staff) :
  ∃ m,
    __init__ staff = Ok m ∧
    ∀ days, ∃ l m',
      assign_days m days = Ok (l, m') ∧
      reset_state m' = m.
Proof.
  eexists. split; [reflexivity|]. intros days.
  set (m0 := {| staff_list := staff |}).
  assert (consistent (reset_state m0)) as Hc
    by by apply reset_state_consistent.
  destruct (assign_days_Ok _ days Hc) as (l & s & Hrun & _ & Hreg & _).
  exists l, s. split; [done|].
  by rewrite (reset_state_same_registry _ _ Hreg).
Qed.
End update_facts.

(** ** From the forecast to the week *)

Section forecast_facts.
Implicit Types (self : StaffAssignmentManager) (fr : ForecastResult).

Lemma mapM_seq_Some {B : Type} (f : nat → option B) (n : nat)
    (p : list B) :
  mapM f (seq 0 n) = Some p ↔
  length p = n ∧ ∀ i y, p !! i = Some y → f i = Some y.
Proof.
  rewrite mapM_Some, Forall2_same_length_lookup, length_seq. split.
  - intros [Hlen H]. split; [done|]. intros i y Hy.
    apply (H i i y); [|done]. apply lookup_seq_lt.
    apply lookup_lt_Some in Hy. lia.
  - intros [Hlen H]. split; [done|]. intros i x y Hx Hy.
    apply lookup_seq in Hx as [-> _]. by apply H.
Qed.

(** X18.  The last-week forecast.  With at least seven days of history
    it never fails: it returns one prediction per future date, the
    prediction for date [i] being the load of day [i mod 7] of the last
    seven days, so the forecast repeats with period seven.  With fewer
    than seven days of history it raises [IndexError] as soon as more
    dates are asked for than there are days of history, and otherwise
    returns the first loads of the history. *)
Theorem last_week_pattern_outcome (load_units : list Z)
    (future_dates : list datetime) :
  ((7 ≤ length load_units)%nat →
   ∃ p,
     _last_week_pattern_forecast load_units future_dates = Some p ∧
     length p = length future_dates ∧
     (∀ i, (i < length future_dates)%nat →
        p !! i = load_units !! (length load_units - 7 + i mod 7)%nat) ∧
     (∀ i, (i + 7 < length future_dates)%nat → p !! (i + 7)%nat = p !! i)) ∧
  ((length load_units < 7)%nat →
   (is_Some (_last_week_pattern_forecast load_units future_dates) ↔
    (length future_dates ≤ length load_units)%nat) ∧
   ∀ p, _last_week_pattern_forecast load_units future_dates = Some p →
        p = take (length future_dates) load_units).
Proof.
  unfold _last_week_pattern_forecast, tail_rows. cbn zeta. split.
  - intros Hlen.
    assert (∀ i, drop (length load_units - 7) load_units !! (i mod 7)%nat
                 = load_units !! (length load_units - 7 + i mod 7)%nat)
      as Hlw by (intros i; apply lookup_drop).
    destruct (mapM_is_Some_2
                (λ i : nat,
                   drop (length load_units - 7) load_units !! (i mod 7)%nat)
                (seq 0 (length future_dates))) as [p Hp].
    { apply Forall_forall. intros i _. unfold compose. cbv beta.
      rewrite Hlw. apply lookup_lt_is_Some.
      pose proof (Nat.mod_upper_bound i 7). lia. }
    exists p. split; [done|].
    apply mapM_seq_Some in Hp as [Hplen Hp].
    assert (∀ i, (i < length future_dates)%nat →
              p !! i
              = load_units !! (length load_units - 7 + i mod 7)%nat)
      as Hidx.
    { intros i Hi. destruct (lookup_lt_is_Some_2 p i) as [y Hy]; [lia|].
      rewrite Hy. by rewrite <-Hlw, (Hp i y Hy). }
    split_and!; [done..|].
    intros i Hi. rewrite !Hidx by lia. do 2 f_equal.
    replace (i + 7)%nat with (i + 1 * 7)%nat by lia.
    apply Nat.Div0.mod_add.
  - intros Hlen.
    replace (length load_units - 7)%nat with 0%nat by lia.
    rewrite drop_0.
    assert (∀ p, mapM (λ i : nat, load_units !! (i mod 7)%nat)
                   (seq 0 (length future_dates)) = Some p →
              (length future_dates ≤ length load_units)%nat ∧
              p = take (length future_dates) load_units) as Hsome.
    { intros p [Hplen Hp]%mapM_seq_Some.
      assert (length future_dates ≤ length load_units)%nat as Hle.
      { destruct (le_lt_dec (length future_dates) (length load_units))
          as [|Hgt]; [done|exfalso].
        destruct (lookup_lt_is_Some_2 p (length load_units)) as [y Hy];
          [lia|].
        apply Hp in Hy. rewrite Nat.mod_small in Hy by done.
        apply lookup_lt_Some in Hy. lia. }
      split; [done|]. apply list_eq. intros i.
      destruct (le_lt_dec (length future_dates) i) as [Hge|Hlt].
      - rewrite lookup_take_ge by done. apply lookup_ge_None. lia.
      - rewrite lookup_take_lt by done.
        destruct (lookup_lt_is_Some_2 p i) as [y Hy]; [lia|].
        rewrite Hy. apply Hp in Hy. rewrite Nat.mod_small in Hy by lia.
        done. }
    split.
    + split.
      * intros [p Hp]. by apply Hsome in Hp as [? _].
      * intros Hle. apply mapM_is_Some_2, Forall_forall.
        intros i Hi%elem_of_seq. unfold compose. cbv beta.
        apply lookup_lt_is_Some.
        rewrite Nat.mod_small by lia. lia.
    + intros p Hp. by apply Hsome in Hp as [_ ?].
Qed.

Lemma to_dataframe_rows (ds : list datetime) (ps : list Z) :
  length ds = length ps →
  row_date <$> zip_with (λ d p, mkDayForecast d p (Some (strftime_A d)))
                        ds ps = ds ∧
  row_people_required
    <$> zip_with (λ d p, mkDayForecast d p (Some (strftime_A d))) ds ps
  = ps ∧
  (λ r, default (strftime_A (row_date r)) (row_day_name r))
    <$> zip_with (λ d p, mkDayForecast d p (Some (strftime_A d))) ds ps
  = strftime_A <$> ds.
Proof.
  revert ps. induction ds as [|d ds IH]; intros [|p ps] Hlen;
    try done.
  cbn in Hlen. destruct (IH ps) as (H1 & H2 & H3); [lia|].
  split_and!; cbn; f_equal; [exact H1|exact H2|exact H3].
Qed.

(** X19.  A forecast handed to the week loop as the table
    [to_dataframe] builds always passes the column check of
    [assign_week]: with as many predictions as dates, on a consistent
    manager the week returns one Assignment per forecast day, in order,
    with that day's date, its prediction as headcount and the weekday of
    the date as label.  With lists of different lengths the table is
    refused with a [ValueError] and the manager is never reached. *)
Theorem forecast_feeds_week self fr :
  consistent self →
  (length (dates fr) = length (predictions fr) →
   ∃ df res self',
     to_dataframe fr = Ok df ∧
     assign_week self df = Ok (res, self') ∧
     date <$> assignments res = dates fr ∧
     people_required <$> assignments res = predictions fr ∧
     day_name <$> assignments res = strftime_A <$> dates fr) ∧
  (length (dates fr) ≠ length (predictions fr) →
   to_dataframe fr
   = Raise (ValueError "All arrays must be of the same length" [])).
Proof.
  intros Hc. unfold to_dataframe. split.
  - intros Hlen. rewrite bool_decide_eq_true_2 by done.
    eexists.
    destruct (assign_week_Ok self
      {| columns := ["date"; "people_required"; "day_name"]%string;
         rows := zip_with (λ d p, mkDayForecast d p (Some (strftime_A d)))
                          (dates fr) (predictions fr) |} Hc)
      as (res & s & Hweek & Hdays & _);
      [cbn [columns]; set_solver..|].
    exists res, s. split; [done|]. split; [done|].
    cbn [rows] in Hdays.
    destruct (assign_days_rows self
                (zip_with (λ d p, mkDayForecast d p (Some (strftime_A d)))
                          (dates fr) (predictions fr)) Hc)
      as (l & s0 & Hrun & Hd & Hr & Hn & _).
    rewrite Hdays in Hrun. injection Hrun as <- <-.
    destruct (to_dataframe_rows _ _ Hlen) as (H1 & H2 & H3).
    by rewrite Hd, Hr, Hn, H1, H2, H3.
  - intros Hne. by rewrite bool_decide_eq_false_2.
Qed.
End forecast_facts.

(** ** The further properties on the roster of three *)

Lemma fresh_names_NoDup : NoDup (staff_names fresh).
Proof. apply (bool_decide_unpack _). vm_compute. exact I. Defined.

Lemma assigned_are_not_on_holiday_witness :
  consistent fresh ∧
  ∃ a self',
    assign_staff_for_day fresh 3 3 None = Ok (a, self') ∧
    ∀ n, n ∈ assigned_staff a →
      n ∈ get_available_staff fresh 3 ∧
      ∃ s, s ∈ staff_list fresh ∧ name s = n ∧ 3 ∉ holiday_dates s.
Proof.
  split; [exact fresh_consistent|].
  exact (assigned_are_not_on_holiday fresh 3 3 None fresh_consistent).
Defined.

Lemma rest_rule_without_overtime_witness :
  consistent fresh ∧
  ∃ a1 s1 a2 s2,
    assign_staff_for_day fresh 1 2 None = Ok (a1, s1) ∧
    assign_staff_for_day s1 2 1 None = Ok (a2, s2) ∧
    (overtime a1 = false →
     ∀ n, n ∈ assigned_staff a1 →
       staff_worked_yesterday fresh !! n = Some false) ∧
    (overtime a2 = false →
     ∀ n, n ∈ assigned_staff a1 → n ∉ assigned_staff a2).
Proof.
  split; [exact fresh_consistent|].
  exact (rest_rule_without_overtime fresh 1 2 None 2 1 None
           fresh_consistent).
Defined.

Lemma selection_size_bounds_witness :
  consistent fresh ∧
  ∃ a self',
    assign_staff_for_day fresh 3 3 None = Ok (a, self') ∧
    assigned_count a = len (assigned_staff a) ∧
    0 ≤ assigned_count a ≤ len (get_available_staff fresh 3) ∧
    (0 ≤ 3 → assigned_count a ≤ 3) ∧
    (NoDup (staff_names fresh) → NoDup (assigned_staff a)).
Proof.
  split; [exact fresh_consistent|].
  exact (selection_size_bounds fresh 3 3 None fresh_consistent).
Defined.

Lemma shortage_is_unmet_demand_witness :
  consistent fresh ∧
  0 ≤ 3 ∧
  ∃ a self',
    assign_staff_for_day fresh 3 3 None = Ok (a, self') ∧
    shortage a = people_required a - assigned_count a ∧
    (is_fully_staffed a = true ↔ assigned_count a = people_required a) ∧
    (0 < shortage a →
     overtime a = true ∧ assigned_staff a ≡ₚ get_available_staff fresh 3).
Proof.
  assert (0 ≤ 3) as Hpos by lia.
  split; [exact fresh_consistent|]. split; [exact Hpos|].
  exact (shortage_is_unmet_demand fresh 3 3 None fresh_consistent Hpos).
Defined.

Lemma selected_have_fewest_workdays_witness :
  consistent after_day1 ∧
  ∃ a self',
    assign_staff_for_day after_day1 2 2 None = Ok (a, self') ∧
    ∀ x y,
      x ∈ assigned_staff a →
      y ∈ (if overtime a then get_available_staff after_day1 2
           else filter (rested after_day1)
                       (get_available_staff after_day1 2)) →
      y ∉ assigned_staff a →
      workdays_of after_day1 x ≤ workdays_of after_day1 y.
Proof.
  split; [exact after_day1_consistent|].
  exact (selected_have_fewest_workdays after_day1 2 2 None
           after_day1_consistent).
Defined.

Lemma counters_step_by_one_witness :
  consistent fresh ∧
  NoDup (staff_names fresh) ∧
  ∃ a self',
    assign_staff_for_day fresh 1 2 None = Ok (a, self') ∧
    ∀ n c, staff_workdays fresh !! n = Some c →
      staff_workdays self' !! n
      = Some (if decide (n ∈ assigned_staff a) then c + 1 else c).
Proof.
  split; [exact fresh_consistent|]. split; [exact fresh_names_NoDup|].
  exact (counters_step_by_one fresh 1 2 None fresh_consistent
           fresh_names_NoDup).
Defined.

Lemma counter_counts_selected_days_witness :
  staff_names fresh = name <$> staff_list fresh ∧
  NoDup (staff_names fresh) ∧
  ∃ l self',
    assign_days (reset_state fresh) two_days = Ok (l, self') ∧
    ∀ n c, staff_workdays self' !! n = Some c →
      c = sum_Z (λ a, if decide (n ∈ assigned_staff a) then 1 else 0) l ∧
      0 ≤ c ≤ len two_days.
Proof.
  split; [reflexivity|]. split; [exact fresh_names_NoDup|].
  exact (counter_counts_selected_days fresh two_days eq_refl
           fresh_names_NoDup).
Defined.

Lemma assignments_follow_rows_witness :
  consistent fresh ∧
  ∃ l self',
    assign_days fresh two_days = Ok (l, self') ∧
    date <$> l = row_date <$> two_days ∧
    people_required <$> l = row_people_required <$> two_days ∧
    day_name <$> l
      = (λ r, default (strftime_A (row_date r)) (row_day_name r))
          <$> two_days ∧
    assignment_history self' = assignment_history fresh ++ l.
Proof.
  split; [exact fresh_consistent|].
  exact (assignments_follow_rows fresh two_days fresh_consistent).
Defined.

Lemma assign_week_outcome_witness :
  consistent fresh ∧
  ("date"%string ∈ columns two_day_table ∧
   "people_required"%string ∈ columns two_day_table →
   ∃ res self',
     assign_week fresh two_day_table = Ok (res, self') ∧
     assign_days fresh (rows two_day_table) = Ok (assignments res, self') ∧
     length (assignments res) = length (rows two_day_table) ∧
     workload_balance res = staff_workdays self' ∧
     summary_stats res = _generate_summary_stats (assignments res) ∧
     (rows two_day_table = [] → assignments res = [] ∧ self' = fresh)) ∧
  (¬ ("date"%string ∈ columns two_day_table ∧
      "people_required"%string ∈ columns two_day_table) →
   ∃ missing,
     assign_week fresh two_day_table
     = Raise (ValueError "Missing required columns in forecast: " missing) ∧
     missing ≠ [] ∧
     missing = filter (λ col, col ∉ columns two_day_table)
                      ["date"; "people_required"]%string).
Proof.
  split; [exact fresh_consistent|].
  exact (assign_week_outcome fresh two_day_table fresh_consistent).
Defined.

Lemma week_statistics_agree_witness :
  consistent fresh ∧
  "date"%string ∈ columns two_day_table ∧
  "people_required"%string ∈ columns two_day_table ∧
  ∃ res self',
    assign_week fresh two_day_table = Ok (res, self') ∧
    total_assignments (summary_stats res) = len (rows two_day_table) ∧
    0 ≤ overtime_days (summary_stats res)
      ≤ total_assignments (summary_stats res) ∧
    sum_values (workload_balance res)
    = total_workdays fresh + total_assigned (summary_stats res) ∧
    (Forall (λ r, 0 ≤ row_people_required r) (rows two_day_table) →
     total_demand (summary_stats res)
     = sum_Z row_people_required (rows two_day_table) ∧
     0 ≤ total_assigned (summary_stats res)
       ≤ total_demand (summary_stats res) ∧
     total_shortage (summary_stats res)
     = total_demand (summary_stats res)
       - total_assigned (summary_stats res)).
Proof.
  assert ("date"%string ∈ columns two_day_table) as Hd
    by (apply (bool_decide_unpack _); vm_compute; exact I).
  assert ("people_required"%string ∈ columns two_day_table) as Hp
    by (apply (bool_decide_unpack _); vm_compute; exact I).
  split; [exact fresh_consistent|]. split; [exact Hd|]. split; [exact Hp|].
  exact (week_statistics_agree fresh two_day_table fresh_consistent Hd Hp).
Defined.

Lemma snapshot_restores_state_witness :
  consistent after_day1 ∧
  staff_workdays (load_state (reset_state after_day1) (get_state after_day1))
  = staff_workdays after_day1 ∧
  staff_worked_yesterday
    (load_state (reset_state after_day1) (get_state after_day1))
  = staff_worked_yesterday after_day1 ∧
  assignment_history
    (load_state (reset_state after_day1) (get_state after_day1)) = [] ∧
  ∃ l s1 s2,
    assign_days after_day1 two_days = Ok (l, s1) ∧
    assign_days (load_state (reset_state after_day1) (get_state after_day1))
                two_days
    = Ok (l, s2) ∧
    staff_workdays s2 = staff_workdays s1 ∧
    staff_worked_yesterday s2 = staff_worked_yesterday s1.
Proof.
  split; [exact after_day1_consistent|].
  exact (snapshot_restores_state after_day1 two_days after_day1_consistent).
Defined.

Lemma load_state_keeps_manager_usable_witness :
  consistent after_day1 ∧
  consistent (load_state after_day1 stranger_snapshot) ∧
  same_registry (load_state after_day1 stranger_snapshot) after_day1 ∧
  assignment_history (load_state after_day1 stranger_snapshot)
  = assignment_history after_day1 ∧
  (∀ n, staff_workdays (load_state after_day1 stranger_snapshot) !! n
        = match sd_staff_workdays stranger_snapshot ≫= (.!! n) with
          | Some c => Some c
          | None => staff_workdays after_day1 !! n
          end) ∧
  (∀ n, staff_worked_yesterday (load_state after_day1 stranger_snapshot) !! n
        = match sd_staff_worked_yesterday stranger_snapshot ≫= (.!! n) with
          | Some b => Some b
          | None => staff_worked_yesterday after_day1 !! n
          end) ∧
  ∀ days, ∃ l self',
    assign_days (load_state after_day1 stranger_snapshot) days
    = Ok (l, self') ∧
    length l = length days.
Proof.
  split; [exact after_day1_consistent|].
  exact (load_state_keeps_manager_usable after_day1 stranger_snapshot
           after_day1_consistent).
Defined.

Lemma forecast_feeds_week_witness :
  consistent fresh ∧
  (length (dates two_day_forecast) = length (predictions two_day_forecast) →
   ∃ df res self',
     to_dataframe two_day_forecast = Ok df ∧
     assign_week fresh df = Ok (res, self') ∧
     date <$> assignments res = dates two_day_forecast ∧
     people_required <$> assignments res = predictions two_day_forecast ∧
     day_name <$> assignments res = strftime_A <$> dates two_day_forecast) ∧
  (length (dates two_day_forecast) ≠ length (predictions two_day_forecast) →
   to_dataframe two_day_forecast
   = Raise (ValueError "All arrays must be of the same length" [])).
Proof.
  split; [exact fresh_consistent|].
  exact (forecast_feeds_week fresh two_day_forecast fresh_consistent).
Defined.
